(** * heilart1n/logger: the logger's lifecycle and daily rotation

    A shallow embedding of [logger.go].  The package keeps a process-wide
    [*Logger], builds a [slog.Handler] for it from a mode and a directory,
    and (in production) spawns a goroutine that replaces the handler when
    the day of the month changes.

    Go pointers to [Logger] are addresses into a heap of records; the
    operating system, the wall clock and the environment are oracles held
    in the world; a Go [panic] is the [Panic] outcome of the monad. *)

From Stdlib Require Import String Ascii ZArith List Lia Bool DecimalString.
From Stdlib Require DecimalPos DecimalN.
From stdpp Require Import base option list.
Import ListNotations.
Local Open Scope string_scope.

(** ** Types of the package *)

(** [type Mod string], [type Type string], [type Path string]. *)
Definition Mod := string.
Definition LType := string.
Definition Path := string.

Definition ModProd : Mod := "prod".
Definition ModDev : Mod := "dev".
Definition TypeService : LType := "service".
Definition TypeRequest : LType := "request".
Definition DefaultMod : Mod := ModDev.
Definition DefaultType : LType := TypeService.
Definition DefaultServicePath : Path := "./logs/service_logs/".
Definition DefaultRequestPath : Path := "./logs/request_logs/".

(** [func (m Mod) Empty() bool { return m == "" }] and its two siblings;
    the three receivers are all strings underneath. *)
Definition Empty (s : string) : bool := String.eqb s "".

(** [func (p Path) String() string { return string(p) }] *)
Definition Path_String (p : Path) : string := p.

(** ** The [time] package, as far as the logger uses it *)

(** A local wall-clock reading: civil date and seconds since midnight. *)
Record Time := mkTime {
  tYear : Z;
  tMonth : Z;
  tDay : Z;
  tSecs : Z
}.

(** [t.Day()]: the day of the month. *)
Definition Day (t : Time) : Z := tDay t.

(** [time.appendInt]: decimal rendering, sign first, zero-padded to [width]. *)
Definition appendInt (x : Z) (width : nat) : string :=
  let digits := NilZero.string_of_uint (N.to_uint (Z.to_N (Z.abs x))) in
  let pad := String.concat "" (repeat "0" (width - String.length digits)) in
  (if (x <? 0)%Z then "-" else "") ++ pad ++ digits.

(** [t.Format(time.DateOnly)], the layout ["2006-01-02"]. *)
Definition FormatDateOnly (t : Time) : string :=
  appendInt (tYear t) 4 ++ "-" ++ appendInt (tMonth t) 2 ++ "-" ++ appendInt (tDay t) 2.

(** Same calendar day: year, month and day of the month agree. *)
Definition sameDate (a b : Time) : Prop :=
  tYear a = tYear b /\ tMonth a = tMonth b /\ tDay a = tDay b.

(** Chronological order of two readings (lexicographic on the fields). *)
Definition Time_le (a b : Time) : Prop :=
  (tYear a < tYear b \/
   (tYear a = tYear b /\
    (tMonth a < tMonth b \/
     (tMonth a = tMonth b /\
      (tDay a < tDay b \/
       (tDay a = tDay b /\ tSecs a <= tSecs b))))))%Z.

(** ** Handlers and the [*slog.Logger] *)

(** An open [*os.File]: its index in the world's table of open files. *)
Definition File := nat.

Inductive Writer :=
| Stdout
| Stderr
| FileWriter (f : File).

Inductive Level := LevelDebug | LevelInfo | LevelWarn | LevelError.

(** The three handlers a [*slog.Logger] of this program can wrap:
    [slog.NewJSONHandler(io.MultiWriter(ws...), opts)],
    [tint.NewHandler(w, opts)], and the library's handler that is in
    place before anything calls [slog.SetDefault]. *)
Inductive Handler :=
| JSONHandler (ws : list Writer) (AddSource : bool) (lvl : Level)
| TintHandler (w : Writer) (lvl : Level) (TimeFormat : string) (AddSource : bool)
| LibraryDefaultHandler.

Record SlogLogger := { handler : Handler }.

(** [slog.New(h)] *)
Definition slogNew (h : Handler) : SlogLogger := {| handler := h |}.

(** ** The Logger struct *)

(** [sync.RWMutex] carries no data here: every region between a
    [Lock]/[RLock] and its [Unlock] is one atomic step of the model.
    [slogLogger] is the embedded [*slog.Logger] ([None] is nil). *)
Record Logger := mkLogger {
  slogLogger : option SlogLogger;
  logFile : option File;
  logsDict : Path;
  mod_ : Mod;
  LoggerType : LType;
  today : Time
}.

Definition withLogger (l : option SlogLogger) (L : Logger) : Logger :=
  {| slogLogger := l; logFile := logFile L; logsDict := logsDict L;
     mod_ := mod_ L; LoggerType := LoggerType L; today := today L |}.

Definition withToday (t : Time) (L : Logger) : Logger :=
  {| slogLogger := slogLogger L; logFile := logFile L; logsDict := logsDict L;
     mod_ := mod_ L; LoggerType := LoggerType L; today := t |}.

(** ** The world *)

(** What the program cannot control.  Every call that leaves the process
    ([time.Now], [time.Sleep], [os.MkdirAll], [os.OpenFile]) consumes one
    tick, and the oracles answer by tick: [clock n] is the reading a
    [time.Now()] made at tick [n] gets, [mkdirErr n p] and [openErr n p]
    say whether a call on [p] at tick [n] fails, and with which error. *)
Record Oracle := mkOracle {
  env : string -> string;
  clock : nat -> Time;
  mkdirErr : nat -> string -> option string;
  openErr : nat -> string -> option string
}.

(** [instance] and [slogDefault] are the two process-wide slots: the
    package variable [instance *Logger] and the logger behind
    [slog.Default()].  [heap] holds every allocated [Logger], [fds] the
    name each file handle was opened under (the table records openings;
    it does not follow what the runtime later collects), [dirs] the
    directories [MkdirAll] has been asked for, and [goroutines] the
    address of the logger each running watcher goroutine serves. *)
Record World := mkWorld {
  os : Oracle;
  tick : nat;
  dirs : list string;
  fds : list string;
  heap : list Logger;
  instance : option nat;
  slogDefault : SlogLogger;
  goroutines : list nat
}.

Definition setTick (n : nat) (w : World) : World :=
  mkWorld (os w) n (dirs w) (fds w) (heap w) (instance w) (slogDefault w) (goroutines w).
Definition setDirs (d : list string) (w : World) : World :=
  mkWorld (os w) (tick w) d (fds w) (heap w) (instance w) (slogDefault w) (goroutines w).
Definition setFds (f : list string) (w : World) : World :=
  mkWorld (os w) (tick w) (dirs w) f (heap w) (instance w) (slogDefault w) (goroutines w).
Definition setHeap (h : list Logger) (w : World) : World :=
  mkWorld (os w) (tick w) (dirs w) (fds w) h (instance w) (slogDefault w) (goroutines w).
Definition setInstance (i : option nat) (w : World) : World :=
  mkWorld (os w) (tick w) (dirs w) (fds w) (heap w) i (slogDefault w) (goroutines w).
Definition setSlogDefault (l : SlogLogger) (w : World) : World :=
  mkWorld (os w) (tick w) (dirs w) (fds w) (heap w) (instance w) l (goroutines w).
Definition setGoroutines (g : list nat) (w : World) : World :=
  mkWorld (os w) (tick w) (dirs w) (fds w) (heap w) (instance w) (slogDefault w) g.

(** ** The monad: state, and panics *)

Inductive Result (A : Type) :=
| Ok (a : A) (w : World)
| Panic (e : string) (w : World).
Arguments Ok {A} a w.
Arguments Panic {A} e w.

Definition M (A : Type) := World -> Result A.

Definition ret {A} (a : A) : M A := fun w => Ok a w.

Definition bind {A B} (m : M A) (k : A -> M B) : M B :=
  fun w => match m w with
           | Ok a w' => k a w'
           | Panic e w' => Panic e w'
           end.

Definition panic {A} (e : string) : M A := fun w => Panic e w.

Notation "'let*' x ':=' c 'in' k" := (bind c (fun x => k))
  (at level 10, x name, c at level 100, k at level 200).

(** The world an outcome leaves behind, whichever way it ended. *)
Definition worldOf {A} (r : Result A) : World :=
  match r with Ok _ w => w | Panic _ w => w end.

(** *** Primitive effects *)

Definition nilDeref : string := "invalid memory address or nil pointer dereference".

(** [os.Getenv] *)
Definition Getenv (k : string) : M string := fun w => Ok (env (os w) k) w.

(** [time.Now()] *)
Definition timeNow : M Time :=
  fun w => Ok (clock (os w) (tick w)) (setTick (S (tick w)) w).

(** [time.Sleep(d)]: time passes; the clock oracle decides how much. *)
Definition timeSleep : M unit :=
  fun w => Ok tt (setTick (S (tick w)) w).

(** [os.MkdirAll(path, os.ModePerm)]: nil ([None]) or the error. *)
Definition MkdirAll (path : string) : M (option string) :=
  fun w => match mkdirErr (os w) (tick w) path with
           | Some e => Ok (Some e) (setTick (S (tick w)) w)
           | None => Ok None (setTick (S (tick w)) (setDirs (path :: dirs w) w))
           end.

(** [os.OpenFile(p, O_APPEND|O_CREATE|O_WRONLY, 0644)]: a new open file
    or the error. *)
Definition OpenFile (p : string) : M (File + string) :=
  fun w => match openErr (os w) (tick w) p with
           | Some e => Ok (inr e) (setTick (S (tick w)) w)
           | None => Ok (inl (length (fds w)))
                        (setTick (S (tick w)) (setFds (fds w ++ [p]) w))
           end.

(** [&Logger{...}]: a new record at a new address. *)
Definition alloc (L : Logger) : M nat :=
  fun w => Ok (length (heap w)) (setHeap (heap w ++ [L]) w).

(** Reading through a [*Logger]. *)
Definition load (ll : nat) : M Logger :=
  fun w => match heap w !! ll with
           | Some L => Ok L w
           | None => Panic nilDeref w
           end.

(** Writing through a [*Logger]. *)
Definition store (ll : nat) (f : Logger -> Logger) : M unit :=
  fun w => match heap w !! ll with
           | Some L => Ok tt (setHeap (<[ll := f L]> (heap w)) w)
           | None => Panic nilDeref w
           end.

(** [go func() { ... }()] inside [ll.watcher()]. *)
Definition spawn (ll : nat) : M unit :=
  fun w => Ok tt (setGoroutines (goroutines w ++ [ll]) w).

Definition readInstance : M (option nat) := fun w => Ok (instance w) w.
Definition writeInstance (ll : nat) : M unit := fun w => Ok tt (setInstance (Some ll) w).

(** [slog.SetDefault(l)] with [l] the embedded pointer of a [Logger];
    the library dereferences it, so nil panics. *)
Definition slogSetDefault (l : option SlogLogger) : M unit :=
  fun w => match l with
           | Some s => Ok tt (setSlogDefault s w)
           | None => Panic nilDeref w
           end.

(** A method call or field access through a possibly-nil [*Logger]. *)
Definition deref (p : option nat) : M nat :=
  match p with
  | Some ll => ret ll
  | None => panic nilDeref
  end.

(** The process before any package [init] has run. *)
Definition initialWorld (o : Oracle) : World :=
  mkWorld o 0 [] [] [] None {| handler := LibraryDefaultHandler |} [].

(** ** The package's functions *)

(** [func Get() *Logger { return instance }] *)
Definition Get : M (option nat) := readInstance.

(** [func build(logsDict Path, mod Mod, lType Type) *Logger]: the embedded
    [*slog.Logger] and [logFile] are left at their zero value, nil. *)
Definition build (dict : Path) (m : Mod) (lType : LType) : M nat :=
  let* now := timeNow in
  alloc (mkLogger None None dict m lType now).

(** [func (ll *Logger) setLogger(logger *slog.Logger)]: one write-locked
    region. *)
Definition setLogger (ll : nat) (logger : option SlogLogger) : M unit :=
  store ll (withLogger logger).

(** [func openLogFile(path Path)], returning the pair of a [*os.File] and
    an [error] as a sum. *)
Definition openLogFile (path : Path) : M (File + string) :=
  let* now := timeNow in
  let p := Path_String path ++ (FormatDateOnly now ++ ".txt") in
  let* err := MkdirAll (Path_String path) in
  match err with
  | Some e => ret (inr e)
  | None => OpenFile p
  end.

(** [func prodHandler(path Path) slog.Handler] *)
Definition prodHandler (path : Path) : M Handler :=
  let* r := openLogFile path in
  match r with
  | inr err => panic err
  | inl file => ret (JSONHandler [Stdout; FileWriter file] true LevelDebug)
  end.

(** [func devHandler() slog.Handler] *)
Definition devHandler : Handler :=
  TintHandler Stderr LevelDebug "3:04:05PM" true.

(** [func selectHandler(mod Mod, path Path) slog.Handler] *)
Definition selectHandler (m : Mod) (path : Path) : M Handler :=
  if String.eqb m ModProd then prodHandler path else ret devHandler.

(** *** The watcher goroutine *)

(** The read-locked region of the loop:
    [shouldRotate := ll.today.Day() != time.Now().Day()]. *)
Definition shouldRotate (ll : nat) : M bool :=
  let* L := load ll in
  let* now := timeNow in
  ret (negb (Z.eqb (Day (today L)) (Day now))).

(** The second write-locked region of a rotation: [ll.today = time.Now()]. *)
Definition setToday (ll : nat) : M unit :=
  let* now := timeNow in
  store ll (withToday now).

(** The branch taken when [shouldRotate] is true. *)
Definition rotate (ll : nat) : M unit :=
  let* L := load ll in
  let* h := prodHandler (logsDict L) in
  let* _ := setLogger ll (Some (slogNew h)) in
  setToday ll.

(** One turn of the goroutine's [for] loop. *)
Definition watcherLoopBody (ll : nat) : M unit :=
  let* _ := timeSleep in
  let* r := shouldRotate ll in
  if r then rotate ll else ret tt.

(** [n] turns of the loop (the loop itself never ends; a panic ends it). *)
Fixpoint watcherLoop (n : nat) (ll : nat) : M unit :=
  match n with
  | O => ret tt
  | S k => let* _ := watcherLoopBody ll in watcherLoop k ll
  end.

(** [func (ll *Logger) watcher()]: starts the goroutine and returns. *)
Definition watcher (ll : nat) : M unit := spawn ll.

(** *** Start-up and the three constructors *)

(** [func init()] *)
Definition init : M unit :=
  let* m := Getenv "LOGGER_MOD" in
  let* lType := Getenv "LOGGER_TYPE" in
  let* sPath := Getenv "LOGGER_SERVICE_PATH" in
  let m := if Empty m then DefaultMod else m in
  let lType := if Empty lType then DefaultType else lType in
  let sPath := if Empty sPath then DefaultServicePath else sPath in
  let* ll := build sPath m lType in
  let* _ := writeInstance ll in
  let* i := readInstance in
  let* i := deref i in
  let* L := load i in
  let* h := selectHandler m (logsDict L) in
  let* i := readInstance in
  let* i := deref i in
  let* _ := setLogger i (Some (slogNew h)) in
  let* _ := (if String.eqb m ModProd
             then (let* i := readInstance in let* i := deref i in watcher i)
             else ret tt) in
  let* i := readInstance in
  let* i := deref i in
  let* L := load i in
  slogSetDefault (slogLogger L).

(** [func CreateProdLogger(logsDict Path)] *)
Definition CreateProdLogger (dict : Path) : M unit :=
  let dict := if Empty dict then DefaultServicePath else dict in
  let* logger := build dict ModProd DefaultType in
  let* h := prodHandler dict in
  let* _ := setLogger logger (Some (slogNew h)) in
  let* _ := watcher logger in
  let* _ := writeInstance logger in
  let* L := load logger in
  slogSetDefault (slogLogger L).

(** [func CreateDevLogger()] *)
Definition CreateDevLogger : M unit :=
  let* logger := build "" ModDev DefaultType in
  let h := devHandler in
  let* _ := setLogger logger (Some (slogNew h)) in
  let* _ := writeInstance logger in
  let* L := load logger in
  slogSetDefault (slogLogger L).

(** [func CreateRequestLogger(mod Mod, logsDict Path) *Logger] *)
Definition CreateRequestLogger (m : Mod) (dict : Path) : M nat :=
  let dict := if Empty dict then DefaultRequestPath else dict in
  let* logger := build dict m TypeRequest in
  let* h := (if String.eqb m ModProd
             then (let* h := prodHandler dict in
                   let* _ := watcher logger in
                   ret h)
             else ret devHandler) in
  let* _ := setLogger logger (Some (slogNew h)) in
  ret logger.

(** ** A small test bench *)

Definition jan (d : Z) (s : Z) : Time := mkTime 2024 1 d s.

(** Every call succeeds; the day is 15 January 2024 up to tick 9 and
    16 January from tick 10 on. *)
Definition calmOracle (e : string -> string) : Oracle :=
  mkOracle e
    (fun n => if Nat.ltb n 10 then jan 15 (Z.of_nat n) else jan 16 (Z.of_nat n))
    (fun _ _ => None) (fun _ _ => None).

(** The same clock, on a file system that refuses every [MkdirAll]. *)
Definition readOnlyOracle (e : string -> string) : Oracle :=
  mkOracle e (clock (calmOracle e))
    (fun _ _ => Some "mkdir: read-only file system") (fun _ _ => None).

Definition noEnv : string -> string := fun _ => "".
Definition prodEnv : string -> string :=
  fun k => if String.eqb k "LOGGER_MOD" then "prod"
           else if String.eqb k "LOGGER_SERVICE_PATH" then "/tmp/t1/" else "".

(** The process after a production start-up under [calmOracle]: one
    logger, at address 0, on [/tmp/t1/], its watcher running; tick 4. *)
Definition prodWorld : World := worldOf (init (initialWorld (calmOracle prodEnv))).

(** [prodWorld] with the clock moved on to tick 10, the first reading of
    16 January. *)
Definition midnightWorld : World := setTick 10 prodWorld.

(** The clock of [calmOracle] on a file system that turns read-only at
    tick 10: construction succeeds, the rotation at midnight cannot make
    its directory. *)
Definition failingNightOracle (e : string -> string) : Oracle :=
  mkOracle e (clock (calmOracle e))
    (fun n _ => if Nat.ltb n 10 then None else Some "mkdir: read-only file system")
    (fun _ _ => None).

(** A production start-up under [failingNightOracle], at tick 10. *)
Definition failingNightWorld : World :=
  setTick 10 (worldOf (init (initialWorld (failingNightOracle prodEnv)))).

(** ** What the specification calls the log file's name *)

(** The directory a path designates: the path without one trailing
    separator. *)
Fixpoint trimSlash (p : string) : string :=
  match p with
  | EmptyString => EmptyString
  | String c rest =>
      match rest with
      | EmptyString => if Ascii.eqb c "/" then EmptyString else p
      | String _ _ => String c (trimSlash rest)
      end
  end.

Fixpoint endsWithSlash (p : string) : bool :=
  match p with
  | EmptyString => false
  | String c rest =>
      match rest with
      | EmptyString => Ascii.eqb c "/"
      | String _ _ => endsWithSlash rest
      end
  end.

(** Specification, File Sink Opener: the file [<path>/<YYYY-MM-DD>.txt],
    whether or not [path] is written with a trailing separator. *)
Definition specLogFileName (path : Path) (t : Time) : string :=
  trimSlash path ++ "/" ++ FormatDateOnly t ++ ".txt".

(** The name [openLogFile] builds: [path.String() + Sprintf("%s.txt", date)]. *)
Definition codeLogFileName (path : Path) (t : Time) : string :=
  Path_String path ++ (FormatDateOnly t ++ ".txt").

(** ** Names for what the constructors compute on the way *)

(** [if v.Empty() { v = d }] *)
Definition orDefault (v d : string) : string := if Empty v then d else v.

(** The configuration [init] settles on in a world. *)
Definition envMod (w : World) : Mod := orDefault (env (os w) "LOGGER_MOD") DefaultMod.
Definition envType (w : World) : LType := orDefault (env (os w) "LOGGER_TYPE") DefaultType.
Definition envPath (w : World) : Path :=
  orDefault (env (os w) "LOGGER_SERVICE_PATH") DefaultServicePath.

(** The directory [CreateRequestLogger] settles on. *)
Definition requestPath (dict : Path) : Path :=
  if Empty dict then DefaultRequestPath else dict.

(** Mode, category and directory of the logger at an address. *)
Definition config (w : World) (ll : nat) : option (Mod * LType * Path) :=
  match heap w !! ll with
  | Some L => Some (mod_ L, LoggerType L, logsDict L)
  | None => None
  end.

(** [openLogFile path], called at tick [t], fails with [e]: [MkdirAll]
    does, or [MkdirAll] succeeds and [OpenFile] does. *)
Definition openFails (o : Oracle) (t : nat) (path : Path) (e : string) : Prop :=
  mkdirErr o (S t) path = Some e \/
  (mkdirErr o (S t) path = None /\
   openErr o (S (S t)) (codeLogFileName path (clock o t)) = Some e).

Definition openSucceeds (o : Oracle) (t : nat) (path : Path) : Prop :=
  mkdirErr o (S t) path = None /\
  openErr o (S (S t)) (codeLogFileName path (clock o t)) = None.

(** Every clock reading from tick [a] to tick [b] falls on the calendar
    day of the reading at [a]. *)
Definition sameDayBetween (o : Oracle) (a b : nat) : Prop :=
  forall i, a <= i <= b -> sameDate (clock o a) (clock o i).

(** The clock never runs backwards. *)
Definition monotoneClock (o : Oracle) : Prop :=
  forall i j, i <= j -> Time_le (clock o i) (clock o j).

(** The sink [slog.New(prodHandler(path))] is when [n] files were open
    before the call. *)
Definition prodSink (n : nat) : option SlogLogger :=
  Some (slogNew (JSONHandler [Stdout; FileWriter n] true LevelDebug)).

(** The name under which the file behind a logger's sink was opened, when
    the sink is a JSON handler on stdout and a file. *)
Definition sinkFile (w : World) (L : Logger) : option string :=
  match slogLogger L with
  | Some {| handler := JSONHandler [Stdout; FileWriter f] _ _ |} => fds w !! f
  | _ => None
  end.

(** ** The watcher among other goroutines *)

(** Where the watcher goroutine stands between two of its atomic regions:
    before the sleep, before the read-locked comparison, before opening
    the new file ([shouldRotate] was true), before [setLogger] (holding the
    handler just built), before the write-locked [ll.today = time.Now()]. *)
Inductive Pc :=
| Sleeping
| Checking
| Opening
| Swapping (h : Handler)
| Dating.

Definition watcherStep (ll : nat) (pc : Pc) : M Pc :=
  match pc with
  | Sleeping => let* _ := timeSleep in ret Checking
  | Checking => let* r := shouldRotate ll in ret (if r then Opening else Sleeping)
  | Opening =>
      let* L := load ll in
      let* h := prodHandler (logsDict L) in
      ret (Swapping h)
  | Swapping h => let* _ := setLogger ll (Some (slogNew h)) in ret Dating
  | Dating => let* _ := setToday ll in ret Sleeping
  end.

(** One turn of the loop, step by step. *)
Definition watcherTurn (ll : nat) : M unit :=
  let* pc := watcherStep ll Sleeping in
  let* pc := watcherStep ll pc in
  match pc with
  | Sleeping => ret tt
  | _ =>
      let* pc := watcherStep ll pc in
      let* pc := watcherStep ll pc in
      let* _ := watcherStep ll pc in
      ret tt
  end.

(** What a goroutine holding the read lock sees of a logger: its sink and
    its date. *)
Definition observe (ll : nat) : M (option SlogLogger * Time) :=
  let* L := load ll in
  ret (slogLogger L, today L).

(** The pairs an observer can see while the watcher makes [n] steps from
    [pc]: one before each step and one after the last. *)
Fixpoint observedDuring (n : nat) (ll : nat) (pc : Pc) (w : World)
  : list (option SlogLogger * Time) :=
  match observe ll w with
  | Panic _ _ => []
  | Ok o _ =>
      o :: match n with
           | O => []
           | S k =>
               match watcherStep ll pc w with
               | Ok pc' w' => observedDuring k ll pc' w'
               | Panic _ _ => []
               end
           end
  end.

(** Watcher goroutines taking turns: each entry of the schedule names the
    logger whose watcher runs one turn of its loop.  A panic in any
    goroutine ends the process. *)
Fixpoint runWatchers (sched : list nat) : M unit :=
  match sched with
  | [] => ret tt
  | g :: rest => let* _ := watcherLoopBody g in runWatchers rest
  end.

(** Whatever turns the running watchers take, the logger at [ll] stays
    the record [L]: same sink, same date. *)
Definition neverRotated (w : World) (ll : nat) (L : Logger) : Prop :=
  forall sched,
    Forall (fun g => In g (goroutines w)) sched ->
    heap (worldOf (runWatchers sched w)) !! ll = Some L.

(** Every running watcher serves a logger that exists. *)
Definition goroutinesAllocated (w : World) : Prop :=
  forall g, In g (goroutines w) -> g < length (heap w).

(** ** Histories of a process *)

(** What can happen in a process once [init] has run: a call of one of
    the three constructors, or one turn of the loop of a watcher that has
    been started. *)
Inductive Op :=
| CallCreateProdLogger (dict : Path)
| CallCreateDevLogger
| CallCreateRequestLogger (m : Mod) (dict : Path)
| WatcherTurn (g : nat).

Definition runOp (o : Op) : M unit :=
  match o with
  | CallCreateProdLogger dict => CreateProdLogger dict
  | CallCreateDevLogger => CreateDevLogger
  | CallCreateRequestLogger m dict =>
      let* _ := CreateRequestLogger m dict in ret tt
  | WatcherTurn g =>
      fun w => if existsb (Nat.eqb g) (goroutines w)
               then watcherLoopBody g w
               else Ok tt w
  end.

Fixpoint runOps (ops : list Op) : M unit :=
  match ops with
  | [] => ret tt
  | o :: rest => let* _ := runOp o in runOps rest
  end.

(** A process: package initialisation, then a history. *)
Definition process (ops : list Op) : M unit :=
  let* _ := init in runOps ops.

(** A logger as a finished construction leaves it and as rotations keep
    it: [logFile] nil; in mode ["prod"] a JSON sink on an open file and a
    watcher; in any other mode the development sink and no watcher. *)
Definition loggerOk (w : World) (ll : nat) (L : Logger) : Prop :=
  logFile L = None /\
  ((mod_ L = ModProd /\ In ll (goroutines w) /\
    exists f, slogLogger L = prodSink f /\ f < length (fds w)) \/
   (mod_ L <> ModProd /\ ~ In ll (goroutines w) /\
    slogLogger L = Some (slogNew devHandler))).

Definition processInvariant (w : World) : Prop :=
  goroutinesAllocated w /\
  NoDup (goroutines w) /\
  (forall ll L, heap w !! ll = Some L -> loggerOk w ll L) /\
  (exists ll, instance w = Some ll /\ ll < length (heap w)).

(** [w'] is [w] with one more logger, finished, and with what its
    construction opened and started. *)
Definition builtFrom (w w' : World) : Prop :=
  exists Lnew,
    heap w' = (heap w ++ [Lnew])%list /\
    (instance w' = instance w \/ instance w' = Some (length (heap w))) /\
    logFile Lnew = None /\
    ((mod_ Lnew = ModProd /\
      goroutines w' = (goroutines w ++ [length (heap w)])%list /\
      (exists name, fds w' = (fds w ++ [name])%list) /\
      slogLogger Lnew = prodSink (length (fds w))) \/
     (mod_ Lnew <> ModProd /\
      goroutines w' = goroutines w /\ fds w' = fds w /\
      slogLogger Lnew = Some (slogNew devHandler))).

(** No two loggers have sinks on the same file handle. *)
Definition sinksDistinct (w : World) : Prop :=
  forall l1 l2 L1 L2 f,
    heap w !! l1 = Some L1 -> heap w !! l2 = Some L2 ->
    slogLogger L1 = prodSink f -> slogLogger L2 = prodSink f ->
    l1 = l2.

(** ** Reading a date back *)

(** A date whose year is not before year 0 (month and day never are
    negative). *)
Definition nonNegativeDate (t : Time) : Prop :=
  (0 <= tYear t /\ 0 <= tMonth t /\ 0 <= tDay t)%Z.

(** The number a string of decimal digits denotes; [None] when some
    character is not a digit. *)
Definition readInt (s : string) : option Z :=
  match NilEmpty.uint_of_string s with
  | Some d => Some (Z.of_N (N.of_uint d))
  | None => None
  end.

(** * Properties *)

(** ** Strings *)

Lemma trimSlash_endsWithSlash (p : string) :
  endsWithSlash p = true -> trimSlash p ++ "/" = p.
Proof.
  induction p as [|c rest IH]; simpl; [discriminate|].
  destruct rest as [|c' rest'].
  - intros H. rewrite H. apply Ascii.eqb_eq in H. now subst c.
  - intros H. simpl in IH |- *. f_equal. now apply IH.
Qed.

Lemma append_assoc (a b c : string) : (a ++ b) ++ c = a ++ (b ++ c).
Proof. induction a as [|x a IH]; simpl; [reflexivity | now rewrite IH]. Qed.

(** When the path is written with its trailing separator the two names
    are the same string. *)
Lemma codeLogFileName_spec (path : Path) (t : Time) :
  endsWithSlash path = true ->
  codeLogFileName path t = specLogFileName path t.
Proof.
  intros H. unfold codeLogFileName, specLogFileName, Path_String.
  rewrite <- (trimSlash_endsWithSlash path H) at 1.
  now rewrite append_assoc.
Qed.

(** ** The file sink opener *)

(** What a call of [openLogFile] does, by the oracle's two answers. *)
Lemma openLogFile_run (path : Path) (w : World) :
  openLogFile path w =
  let name := codeLogFileName path (clock (os w) (tick w)) in
  match mkdirErr (os w) (S (tick w)) path with
  | Some e => Ok (inr e) (setTick (S (S (tick w))) w)
  | None =>
      match openErr (os w) (S (S (tick w))) name with
      | Some e => Ok (inr e) (setTick (3 + tick w) (setDirs (path :: dirs w) w))
      | None => Ok (inl (length (fds w)))
                  (setTick (3 + tick w)
                     (setFds (fds w ++ [name]) (setDirs (path :: dirs w) w)))
      end
  end.
Proof.
  unfold openLogFile, bind, timeNow, MkdirAll, OpenFile, ret, Path_String; cbn.
  destruct (mkdirErr (os w) (S (tick w)) path); cbn; [reflexivity|].
  destruct (openErr _ _ _); reflexivity.
Qed.

Lemma prodHandler_run (path : Path) (w : World) :
  prodHandler path w =
  let name := codeLogFileName path (clock (os w) (tick w)) in
  match mkdirErr (os w) (S (tick w)) path with
  | Some e => Panic e (setTick (S (S (tick w))) w)
  | None =>
      match openErr (os w) (S (S (tick w))) name with
      | Some e => Panic e (setTick (3 + tick w) (setDirs (path :: dirs w) w))
      | None => Ok (JSONHandler [Stdout; FileWriter (length (fds w))] true LevelDebug)
                  (setTick (3 + tick w)
                     (setFds (fds w ++ [name]) (setDirs (path :: dirs w) w)))
      end
  end.
Proof.
  unfold prodHandler, bind. rewrite openLogFile_run. cbn.
  destruct (mkdirErr _ _ _); [reflexivity|].
  destruct (openErr _ _ _); reflexivity.
Qed.

Lemma trimSlash_no_slash (p : string) :
  endsWithSlash p = false -> trimSlash p = p.
Proof.
  induction p as [|c rest IH]; simpl; [reflexivity|].
  destruct rest as [|c' rest'].
  - now intros ->.
  - intros H. f_equal. now apply IH.
Qed.

Lemma append_inj_l (p a b : string) : p ++ a = p ++ b -> a = b.
Proof.
  induction p as [|c p IH]; simpl; [trivial|].
  intros H. injection H as H. now apply IH.
Qed.

(** For a path written without the trailing separator the name the code
    builds is never the one the specification gives. *)
Lemma codeLogFileName_not_spec (path : Path) (t : Time) :
  endsWithSlash path = false ->
  codeLogFileName path t <> specLogFileName path t.
Proof.
  intros H E. unfold codeLogFileName, specLogFileName, Path_String in E.
  rewrite (trimSlash_no_slash path H) in E. apply append_inj_l in E.
  remember (FormatDateOnly t ++ ".txt") as name.
  apply (f_equal String.length) in E. cbn in E. lia.
Qed.

(** Whenever it succeeds, [openLogFile] has asked for the directory [path]
    and opened one more file, named [path] followed by the date and
    [.txt]. *)
Lemma openLogFile_opens (path : Path) (w w' : World) (f : File) :
  openLogFile path w = Ok (inl f) w' ->
  f = length (fds w) /\
  fds w' = (fds w ++ [codeLogFileName path (clock (os w) (tick w))])%list /\
  dirs w' = path :: dirs w.
Proof.
  rewrite openLogFile_run. cbn zeta.
  destruct (mkdirErr _ _ _); [discriminate|].
  destruct (openErr _ _ _); [discriminate|].
  intros H. injection H as <- <-. now cbn.
Qed.

(** C2, at the failing input.  Asked for the directory [/tmp/t1] on
    15 January 2024, [openLogFile] creates that directory and then opens
    [/tmp/t12024-01-15.txt], a file beside the directory and not the
    [/tmp/t1/2024-01-15.txt] inside it that the specification names. *)
Theorem openLogFile_no_separator :
  let w := initialWorld (calmOracle noEnv) in
  let r := openLogFile "/tmp/t1" w in
  specLogFileName "/tmp/t1" (clock (os w) 0) = "/tmp/t1/2024-01-15.txt" /\
  (exists w', r = Ok (inl 0) w' /\
              dirs w' = ["/tmp/t1"] /\
              fds w' = ["/tmp/t12024-01-15.txt"]) /\
  fds (worldOf r) <> [specLogFileName "/tmp/t1" (clock (os w) 0)].
Proof.
  cbn zeta. rewrite openLogFile_run. split; [reflexivity|]. split.
  - cbn. eexists. split; [reflexivity|]. split; reflexivity.
  - vm_compute. discriminate.
Qed.

(** ** The handler factory *)

(** C6.  For every mode other than ["prod"], recognised or not,
    [selectHandler] returns the development handler (tint on stderr, debug
    level, source locations on) and does nothing else: no clock reading, no
    directory, no file. *)
Theorem selectHandler_not_prod (m : Mod) (path : Path) (w : World) :
  m <> ModProd ->
  selectHandler m path w = Ok devHandler w /\
  devHandler = TintHandler Stderr LevelDebug "3:04:05PM" true.
Proof.
  intros Hm. unfold selectHandler.
  destruct (String.eqb_spec m ModProd) as [->|_]; [contradiction|].
  split; reflexivity.
Qed.

Lemma selectHandler_not_prod_witness :
  "staging" <> ModProd /\
  selectHandler "staging" "/var/log/app/" (initialWorld (calmOracle noEnv))
  = Ok devHandler (initialWorld (calmOracle noEnv)).
Proof.
  split; [discriminate|].
  apply (selectHandler_not_prod "staging" "/var/log/app/"). discriminate.
Defined.

(** ** The heap *)

Lemma lookup_snoc {A} (h : list A) (x : A) : (h ++ [x])%list !! length h = Some x.
Proof. now apply list_lookup_middle. Qed.

Lemma insert_snoc {A} (h : list A) (x y : A) :
  <[length h := y]> (h ++ [x])%list = (h ++ [y])%list.
Proof.
  induction h as [|a h IH]; [reflexivity|].
  cbn. f_equal. exact IH.
Qed.

Lemma lookup_snoc_old {A} (h : list A) (x : A) (a : nat) :
  a < length h -> (h ++ [x])%list !! a = h !! a.
Proof. intros H. now apply lookup_app_l. Qed.

(** ** Running the constructors *)

Lemma build_run (d : Path) (m : Mod) (t : LType) (w : World) :
  build d m t w =
  Ok (length (heap w))
     (setHeap (heap w ++ [mkLogger None None d m t (clock (os w) (tick w))])
        (setTick (S (tick w)) w)).
Proof. reflexivity. Qed.

Arguments prodHandler : simpl never.
Arguments openLogFile : simpl never.

(** Symbolic execution: unfold the monad and the primitive effects, and
    resolve reads and writes of the logger allocated last. *)
Ltac exec :=
  unfold bind, ret, panic, deref, setLogger, setToday, watcher, store, load,
    spawn, readInstance, writeInstance, slogSetDefault, Getenv, timeSleep,
    timeNow;
  repeat (progress cbn || rewrite lookup_snoc || rewrite insert_snoc).

Lemma CreateDevLogger_run (w : World) :
  CreateDevLogger w =
  Ok tt (mkWorld (os w) (S (tick w)) (dirs w) (fds w)
           (heap w ++ [mkLogger (Some (slogNew devHandler)) None "" ModDev
                         DefaultType (clock (os w) (tick w))])
           (Some (length (heap w))) (slogNew devHandler) (goroutines w)).
Proof.
  unfold CreateDevLogger, bind at 1. rewrite build_run. exec. reflexivity.
Qed.

Lemma CreateRequestLogger_dev (m : Mod) (dict : Path) (w : World) :
  m <> ModProd ->
  CreateRequestLogger m dict w =
  Ok (length (heap w))
     (setHeap (heap w ++ [mkLogger (Some (slogNew devHandler)) None
                            (requestPath dict) m TypeRequest
                            (clock (os w) (tick w))])
        (setTick (S (tick w)) w)).
Proof.
  intros Hm. unfold CreateRequestLogger, bind at 1. rewrite build_run.
  destruct (String.eqb_spec m ModProd) as [->|_]; [contradiction|].
  exec. reflexivity.
Qed.

Lemma CreateRequestLogger_prod (dict : Path) (w : World) :
  CreateRequestLogger ModProd dict w =
  let path := requestPath dict in
  let L := mkLogger None None path ModProd TypeRequest (clock (os w) (tick w)) in
  let name := codeLogFileName path (clock (os w) (S (tick w))) in
  match mkdirErr (os w) (2 + tick w) path with
  | Some e => Panic e (setHeap (heap w ++ [L]) (setTick (3 + tick w) w))
  | None =>
      match openErr (os w) (3 + tick w) name with
      | Some e => Panic e (setHeap (heap w ++ [L])
                             (setTick (4 + tick w) (setDirs (path :: dirs w) w)))
      | None =>
          Ok (length (heap w))
             (mkWorld (os w) (4 + tick w) (path :: dirs w) (fds w ++ [name])
                (heap w ++ [withLogger
                              (Some (slogNew (JSONHandler
                                     [Stdout; FileWriter (length (fds w))]
                                     true LevelDebug))) L])
                (instance w) (slogDefault w)
                (goroutines w ++ [length (heap w)]))
      end
  end.
Proof.
  unfold CreateRequestLogger, bind at 1. rewrite build_run.
  change (String.eqb ModProd ModProd) with true. cbv iota.
  unfold bind at 1. unfold bind at 1. rewrite prodHandler_run.
  fold (requestPath dict). cbn.
  destruct (mkdirErr _ _ _); [reflexivity|].
  destruct (openErr _ _ _); [reflexivity|].
  exec. reflexivity.
Qed.

Lemma CreateProdLogger_run (dict : Path) (w : World) :
  CreateProdLogger dict w =
  let path := orDefault dict DefaultServicePath in
  let L := mkLogger None None path ModProd DefaultType (clock (os w) (tick w)) in
  let name := codeLogFileName path (clock (os w) (S (tick w))) in
  match mkdirErr (os w) (2 + tick w) path with
  | Some e => Panic e (setHeap (heap w ++ [L]) (setTick (3 + tick w) w))
  | None =>
      match openErr (os w) (3 + tick w) name with
      | Some e => Panic e (setHeap (heap w ++ [L])
                             (setTick (4 + tick w) (setDirs (path :: dirs w) w)))
      | None =>
          let sink := slogNew (JSONHandler [Stdout; FileWriter (length (fds w))]
                                 true LevelDebug) in
          Ok tt
             (mkWorld (os w) (4 + tick w) (path :: dirs w) (fds w ++ [name])
                (heap w ++ [withLogger (Some sink) L])
                (Some (length (heap w))) sink
                (goroutines w ++ [length (heap w)]))
      end
  end.
Proof.
  unfold CreateProdLogger, bind at 1. rewrite build_run.
  unfold bind at 1. rewrite prodHandler_run.
  fold (orDefault dict DefaultServicePath). cbn.
  destruct (mkdirErr _ _ _); [reflexivity|].
  destruct (openErr _ _ _); [reflexivity|].
  exec. reflexivity.
Qed.

Lemma init_dev (w : World) :
  envMod w <> ModProd ->
  init w =
  Ok tt (mkWorld (os w) (S (tick w)) (dirs w) (fds w)
           (heap w ++ [mkLogger (Some (slogNew devHandler)) None (envPath w)
                         (envMod w) (envType w) (clock (os w) (tick w))])
           (Some (length (heap w))) (slogNew devHandler) (goroutines w)).
Proof.
  intros Hm. unfold init.
  unfold bind at 1, Getenv at 1. unfold bind at 1, Getenv at 1.
  unfold bind at 1, Getenv at 1.
  cbv zeta beta.
  change (if Empty (env (os w) "LOGGER_MOD") then DefaultMod
          else env (os w) "LOGGER_MOD") with (envMod w).
  change (if Empty (env (os w) "LOGGER_TYPE") then DefaultType
          else env (os w) "LOGGER_TYPE") with (envType w).
  change (if Empty (env (os w) "LOGGER_SERVICE_PATH") then DefaultServicePath
          else env (os w) "LOGGER_SERVICE_PATH") with (envPath w).
  unfold bind at 1. rewrite build_run. unfold selectHandler.
  destruct (String.eqb_spec (envMod w) ModProd) as [E|_]; [contradiction|].
  exec. reflexivity.
Qed.

Lemma init_prod (w : World) :
  envMod w = ModProd ->
  init w =
  let path := envPath w in
  let L := mkLogger None None path ModProd (envType w) (clock (os w) (tick w)) in
  let name := codeLogFileName path (clock (os w) (S (tick w))) in
  match mkdirErr (os w) (2 + tick w) path with
  | Some e => Panic e (setInstance (Some (length (heap w)))
                         (setHeap (heap w ++ [L]) (setTick (3 + tick w) w)))
  | None =>
      match openErr (os w) (3 + tick w) name with
      | Some e => Panic e (setInstance (Some (length (heap w)))
                             (setHeap (heap w ++ [L])
                                (setTick (4 + tick w) (setDirs (path :: dirs w) w))))
      | None =>
          let sink := slogNew (JSONHandler [Stdout; FileWriter (length (fds w))]
                                 true LevelDebug) in
          Ok tt
             (mkWorld (os w) (4 + tick w) (path :: dirs w) (fds w ++ [name])
                (heap w ++ [withLogger (Some sink) L])
                (Some (length (heap w))) sink
                (goroutines w ++ [length (heap w)]))
      end
  end.
Proof.
  intros Hm. unfold init.
  unfold bind at 1, Getenv at 1. unfold bind at 1, Getenv at 1.
  unfold bind at 1, Getenv at 1.
  cbv zeta beta.
  change (if Empty (env (os w) "LOGGER_MOD") then DefaultMod
          else env (os w) "LOGGER_MOD") with (envMod w).
  change (if Empty (env (os w) "LOGGER_TYPE") then DefaultType
          else env (os w) "LOGGER_TYPE") with (envType w).
  change (if Empty (env (os w) "LOGGER_SERVICE_PATH") then DefaultServicePath
          else env (os w) "LOGGER_SERVICE_PATH") with (envPath w).
  rewrite Hm.
  unfold bind at 1. rewrite build_run. unfold selectHandler.
  change (String.eqb ModProd ModProd) with true. cbv iota.
  exec. rewrite prodHandler_run. cbn.
  destruct (mkdirErr _ _ _); [reflexivity|].
  destruct (openErr _ _ _); [reflexivity|].
  exec. reflexivity.
Qed.

Lemma orDefault_empty (d : string) : orDefault "" d = d.
Proof. reflexivity. Qed.

(** Reads the configuration of the logger allocated last. *)
Ltac cfg := unfold config; cbn; rewrite lookup_snoc; reflexivity.

(** ** Defaults *)

(** C5, as stated, fails: [CreateRequestLogger] given an empty mode and an
    empty path builds a logger whose directory is [./logs/request_logs/],
    whose mode is still empty and whose category is [request]. *)
Lemma request_logger_defaults_differ :
  exists w',
    CreateRequestLogger "" "" (initialWorld (calmOracle noEnv)) = Ok 0 w' /\
    config w' 0 = Some ("", "request", "./logs/request_logs/") /\
    config w' 0 <> Some (DefaultMod, DefaultType, DefaultServicePath).
Proof.
  eexists. split; [reflexivity|]. split; [reflexivity|]. discriminate.
Qed.

(** C5, amended.  [init] replaces each empty environment value by its
    default on its own, so with all three empty the start-up logger is in
    mode [dev], category [service], directory [./logs/service_logs/];
    [CreateProdLogger] given an empty path uses [./logs/service_logs/];
    [CreateRequestLogger] given an empty path uses [./logs/request_logs/],
    keeps the mode it was given and has category [request];
    [CreateDevLogger] keeps the empty path.  The logger meant is the one
    the call allocates, at the first free address. *)
Theorem defaults_by_constructor (w : World) :
  let ll := length (heap w) in
  (env (os w) "LOGGER_MOD" = "" ->
   env (os w) "LOGGER_TYPE" = "" ->
   env (os w) "LOGGER_SERVICE_PATH" = "" ->
   exists w', init w = Ok tt w' /\ instance w' = Some ll /\
              config w' ll = Some ("dev", "service", "./logs/service_logs/")) /\
  config (worldOf (init w)) ll = Some (envMod w, envType w, envPath w) /\
  config (worldOf (CreateProdLogger "" w)) ll
    = Some ("prod", "service", "./logs/service_logs/") /\
  (forall m, config (worldOf (CreateRequestLogger m "" w)) ll
             = Some (m, "request", "./logs/request_logs/")) /\
  config (worldOf (CreateDevLogger w)) ll = Some ("dev", "service", "").
Proof.
  cbn zeta. repeat split.
  - intros Hm Ht Hp.
    assert (Hdev : envMod w <> ModProd).
    { unfold envMod. rewrite Hm. discriminate. }
    rewrite (init_dev w Hdev). eexists. split; [reflexivity|]. split; [reflexivity|].
    unfold config. cbn. rewrite lookup_snoc. cbn.
    unfold envMod, envType, envPath. now rewrite Hm, Ht, Hp.
  - destruct (String.eqb_spec (envMod w) ModProd) as [E|E].
    + rewrite (init_prod w E). cbn zeta. rewrite E.
      destruct (mkdirErr _ _ _); [cfg|]. destruct (openErr _ _ _); cfg.
    + rewrite (init_dev w E). cfg.
  - rewrite CreateProdLogger_run. cbn zeta.
    destruct (mkdirErr _ _ _); [cfg|]. destruct (openErr _ _ _); cfg.
  - intros m. destruct (String.eqb_spec m ModProd) as [->|E].
    + rewrite CreateRequestLogger_prod. cbn zeta.
      destruct (mkdirErr _ _ _); [cfg|]. destruct (openErr _ _ _); cfg.
    + rewrite (CreateRequestLogger_dev m "" w E). cfg.
  - rewrite CreateDevLogger_run. cfg.
Qed.

Lemma defaults_by_constructor_witness :
  let w := initialWorld (calmOracle noEnv) in
  env (os w) "LOGGER_MOD" = "" /\
  env (os w) "LOGGER_TYPE" = "" /\
  env (os w) "LOGGER_SERVICE_PATH" = "" /\
  exists w', init w = Ok tt w' /\ instance w' = Some 0 /\
             config w' 0 = Some ("dev", "service", "./logs/service_logs/").
Proof.
  cbn zeta. repeat (split; [reflexivity|]).
  apply (defaults_by_constructor (initialWorld (calmOracle noEnv))); reflexivity.
Defined.

(** ** The request logger and the singleton *)

(** C9.  For every mode and path, [CreateRequestLogger] returns whenever
    it has no file to open (a mode other than ["prod"]) or the directory
    can be made and the file opened, and it panics only in mode ["prod"]
    with the error of the failed call.  What it returns is the address,
    not allocated before the call, of a logger it has just built: the
    directory it settled on, the mode it was given, category [request], the
    construction-time date, a nil [logFile], and a sink that is not nil
    (the JSON sink on the file handle this call opened in mode ["prod"],
    the development sink otherwise).  Whether it returns or panics, it
    leaves the package variable [instance] and the [slog] default logger as
    they were, so [Get()] answers the same before and after, and it changes
    no logger that existed. *)
Theorem CreateRequestLogger_leaves_singleton (m : Mod) (dict : Path) (w : World) :
  let r := CreateRequestLogger m dict w in
  let ll := length (heap w) in
  let fresh :=
    mkLogger (if String.eqb m ModProd
              then prodSink (length (fds w))
              else Some (slogNew devHandler))
             None (requestPath dict) m TypeRequest (clock (os w) (tick w)) in
  instance (worldOf r) = instance w /\
  slogDefault (worldOf r) = slogDefault w /\
  (exists v, Get w = Ok v w /\ Get (worldOf r) = Ok v (worldOf r)) /\
  (forall a L, heap w !! a = Some L -> heap (worldOf r) !! a = Some L) /\
  (m <> ModProd \/ openSucceeds (os w) (S (tick w)) (requestPath dict) ->
   exists w', r = Ok ll w') /\
  match r with
  | Ok a w' => heap w !! a = None /\ is_Some (heap w' !! a) /\
               (forall b, is_Some (heap w !! b) -> b <> a) /\
               a = ll /\ heap w' !! a = Some fresh /\ slogLogger fresh <> None
  | Panic e _ => m = ModProd /\ openFails (os w) (S (tick w)) (requestPath dict) e
  end.
Proof.
  assert (Hold : forall (h : list Logger) x a L,
             h !! a = Some L -> (h ++ [x])%list !! a = Some L).
  { intros h x a L H. rewrite lookup_snoc_old; [exact H|].
    now apply lookup_lt_Some in H. }
  assert (Hfresh : heap w !! length (heap w) = None).
  { apply lookup_ge_None. lia. }
  assert (Hne : forall a, is_Some (heap w !! a) -> a <> length (heap w)).
  { intros a Ha ->. rewrite Hfresh in Ha. now destruct Ha. }
  cbn zeta. unfold openSucceeds, openFails.
  destruct (String.eqb_spec m ModProd) as [->|E].
  - rewrite CreateRequestLogger_prod. cbn zeta. cbn [Nat.add].
    destruct (mkdirErr _ _ _) as [e1|] eqn:Hm;
      [|destruct (openErr _ _ _) as [e2|] eqn:Ho]; cbn;
      (split; [reflexivity|]); (split; [reflexivity|]);
      (split; [eexists; split; reflexivity|]);
      (split; [intros a L H; now apply Hold|]).
    + split; [intros [C|[C _]]; [now contradiction C|discriminate C]|].
      split; [reflexivity|now left].
    + split; [intros [C|[_ C]]; [now contradiction C|discriminate C]|].
      split; [reflexivity|right; now split].
    + split; [intros _; eauto|].
      split; [exact Hfresh|]. rewrite lookup_snoc.
      split; [eauto|]. split; [exact Hne|]. split; [reflexivity|].
      split; [reflexivity|discriminate].
  - rewrite (CreateRequestLogger_dev m dict w E). cbn.
    split; [reflexivity|]. split; [reflexivity|].
    split; [eexists; split; reflexivity|].
    split; [intros a L H; now apply Hold|].
    split; [intros _; eauto|].
    split; [exact Hfresh|]. rewrite lookup_snoc.
    split; [eauto|]. split; [exact Hne|]. split; [reflexivity|].
    split; [reflexivity|discriminate].
Qed.

Lemma CreateRequestLogger_leaves_singleton_witness :
  let w := initialWorld (calmOracle noEnv) in
  openSucceeds (os w) (S (tick w)) (requestPath "") /\
  exists w',
    CreateRequestLogger "prod" "" w = Ok 0 w' /\
    instance w' = instance w /\ slogDefault w' = slogDefault w /\
    heap w' !! 0
    = Some (mkLogger (prodSink 0) None "./logs/request_logs/" "prod" "request"
              (jan 15 0)).
Proof.
  cbn zeta.
  assert (Hopen : openSucceeds (os (initialWorld (calmOracle noEnv)))
                    (S (tick (initialWorld (calmOracle noEnv)))) (requestPath ""))
    by (split; reflexivity).
  split; [exact Hopen|].
  pose proof (CreateRequestLogger_leaves_singleton "prod" ""
                (initialWorld (calmOracle noEnv)))
    as (Hi & Hd & _ & _ & Hret & Hcase).
  cbn zeta in Hi, Hd, Hret, Hcase.
  destruct (Hret (or_intror Hopen)) as [w' Hrun].
  rewrite Hrun in Hi, Hd, Hcase. cbn [worldOf] in Hi, Hd.
  destruct Hcase as (_ & _ & _ & _ & HL & _).
  exists w'. split; [exact Hrun|]. split; [exact Hi|]. split; [exact Hd|exact HL].
Defined.

(** ** I/O errors while constructing *)

Lemma openFails_openLogFile (path : Path) (w : World) (e : string) :
  openFails (os w) (tick w) path e <->
  exists w', openLogFile path w = Ok (inr e) w'.
Proof.
  rewrite openLogFile_run. cbn zeta. unfold openFails. split.
  - intros [H|[H1 H2]].
    + rewrite H. eauto.
    + rewrite H1, H2. eauto.
  - intros [w' H]. destruct (mkdirErr _ _ _) as [e1|].
    + left. congruence.
    + right. split; [reflexivity|]. destruct (openErr _ _ _); congruence.
Qed.

Lemma openFails_prodHandler (path : Path) (w : World) (e : string) :
  openFails (os w) (tick w) path e ->
  exists w', prodHandler path w = Panic e w' /\
             heap w' = heap w /\ fds w' = fds w /\ instance w' = instance w /\
             slogDefault w' = slogDefault w /\ goroutines w' = goroutines w.
Proof.
  rewrite prodHandler_run. cbn zeta. intros [H|[H1 H2]].
  - rewrite H. eexists. split; [reflexivity|]. now cbn.
  - rewrite H1, H2. eexists. split; [reflexivity|]. now cbn.
Qed.

(** C7.  In production mode, when [MkdirAll] or [OpenFile] fails with an
    error [e] while the first sink is being created, construction panics
    with [e] and returns no logger: so do [init], [CreateProdLogger] and
    [CreateRequestLogger].  Nothing after the failing call has run: no
    watcher is started, the [slog] default is untouched, and the two
    explicit constructors leave the package variable [instance] as it
    was. *)
Theorem io_error_aborts_construction (w : World) (e : string) :
  (envMod w = ModProd ->
   openFails (os w) (S (tick w)) (envPath w) e ->
   exists w', init w = Panic e w' /\
              slogDefault w' = slogDefault w /\ goroutines w' = goroutines w /\
              fds w' = fds w) /\
  (forall dict,
      openFails (os w) (S (tick w)) (orDefault dict DefaultServicePath) e ->
      exists w', CreateProdLogger dict w = Panic e w' /\
                 instance w' = instance w /\ slogDefault w' = slogDefault w /\
                 goroutines w' = goroutines w /\ fds w' = fds w) /\
  (forall dict,
      openFails (os w) (S (tick w)) (requestPath dict) e ->
      exists w', CreateRequestLogger ModProd dict w = Panic e w' /\
                 instance w' = instance w /\ slogDefault w' = slogDefault w /\
                 goroutines w' = goroutines w /\ fds w' = fds w).
Proof.
  unfold openFails. repeat split.
  - intros Hm H. rewrite (init_prod w Hm). cbn zeta. cbn [Nat.add].
    destruct H as [H|[H1 H2]].
    + rewrite H. eexists. split; [reflexivity|]. now cbn.
    + rewrite H1, H2. eexists. split; [reflexivity|]. now cbn.
  - intros dict H. rewrite CreateProdLogger_run. cbn zeta. cbn [Nat.add].
    destruct H as [H|[H1 H2]].
    + rewrite H. eexists. split; [reflexivity|]. now cbn.
    + rewrite H1, H2. eexists. split; [reflexivity|]. now cbn.
  - intros dict H. rewrite CreateRequestLogger_prod. cbn zeta. cbn [Nat.add].
    destruct H as [H|[H1 H2]].
    + rewrite H. eexists. split; [reflexivity|]. now cbn.
    + rewrite H1, H2. eexists. split; [reflexivity|]. now cbn.
Qed.

Lemma io_error_aborts_construction_witness :
  let w := initialWorld (readOnlyOracle prodEnv) in
  let e := "mkdir: read-only file system" in
  envMod w = ModProd /\
  openFails (os w) (S (tick w)) (envPath w) e /\
  exists w', init w = Panic e w' /\
             slogDefault w' = slogDefault w /\ goroutines w' = goroutines w /\
             fds w' = fds w.
Proof.
  cbn zeta. split; [reflexivity|]. split; [left; reflexivity|].
  apply (io_error_aborts_construction (initialWorld (readOnlyOracle prodEnv))
           "mkdir: read-only file system").
  - reflexivity.
  - left. reflexivity.
Defined.

(** ** One turn of the watcher *)

Lemma shouldRotate_run (ll : nat) (w : World) (L : Logger) :
  heap w !! ll = Some L ->
  shouldRotate ll w =
  Ok (negb (Day (today L) =? Day (clock (os w) (tick w)))%Z)
     (setTick (S (tick w)) w).
Proof. intros H. unfold shouldRotate. exec. rewrite H. reflexivity. Qed.

(** The sink a rotation installs when the table of open files is [f]. *)
Lemma rotate_run (ll : nat) (w : World) (L : Logger) :
  heap w !! ll = Some L ->
  rotate ll w =
  let path := logsDict L in
  let name := codeLogFileName path (clock (os w) (tick w)) in
  match mkdirErr (os w) (S (tick w)) path with
  | Some e => Panic e (setTick (S (S (tick w))) w)
  | None =>
      match openErr (os w) (S (S (tick w))) name with
      | Some e => Panic e (setTick (S (S (S (tick w)))) (setDirs (path :: dirs w) w))
      | None =>
          let sink := slogNew (JSONHandler [Stdout; FileWriter (length (fds w))]
                                 true LevelDebug) in
          Ok tt
             (mkWorld (os w) (S (S (S (S (tick w))))) (path :: dirs w)
                (fds w ++ [name])
                (<[ll := withToday (clock (os w) (S (S (S (tick w)))))
                           (withLogger (Some sink) L)]> (heap w))
                (instance w) (slogDefault w) (goroutines w))
      end
  end.
Proof.
  intros H. unfold rotate. exec. rewrite H. rewrite prodHandler_run. cbn.
  destruct (mkdirErr _ _ _); [reflexivity|].
  destruct (openErr _ _ _); [reflexivity|].
  exec. rewrite H. cbn.
  rewrite list_lookup_insert_eq by (now apply lookup_lt_Some in H).
  rewrite list_insert_insert_eq. reflexivity.
Qed.

Lemma watcherLoopBody_run (ll : nat) (w : World) (L : Logger) :
  heap w !! ll = Some L ->
  watcherLoopBody ll w =
  if (Day (today L) =? Day (clock (os w) (S (tick w))))%Z
  then Ok tt (setTick (S (S (tick w))) w)
  else rotate ll (setTick (S (S (tick w))) w).
Proof.
  intros H. unfold watcherLoopBody. unfold bind at 1, timeSleep.
  unfold bind at 1. rewrite (shouldRotate_run ll _ L) by exact H. cbn.
  destruct (Day (today L) =? Day _)%Z; reflexivity.
Qed.

(** The step machine makes the same turn as the loop body. *)
Lemma watcherTurn_body (ll : nat) (w : World) :
  watcherTurn ll w = watcherLoopBody ll w.
Proof.
  unfold watcherTurn, watcherLoopBody, watcherStep, rotate, bind, timeSleep, ret.
  destruct (shouldRotate ll (setTick (S (tick w)) w)) as [[|] w1|e w1];
    [|reflexivity..].
  destruct (load ll w1) as [L w2|e w2]; [|reflexivity].
  destruct (prodHandler (logsDict L) w2) as [h w3|e w3]; [|reflexivity].
  destruct (setLogger ll _ w3) as [[] w4|e w4]; [|reflexivity].
  destruct (setToday ll w4) as [[] w5|e w5]; reflexivity.
Qed.

(** ** When the watcher rotates *)

(** Between two readings of a clock that never runs backwards, on the
    same calendar day, every reading is on that day too. *)
Lemma monotone_sameDayBetween (o : Oracle) (a b : nat) :
  monotoneClock o -> a <= b -> sameDate (clock o a) (clock o b) ->
  sameDayBetween o a b.
Proof.
  intros Hmono Hab Hsame i [Hai Hib].
  pose proof (Hmono a i Hai) as H1. pose proof (Hmono i b Hib) as H2.
  unfold sameDate, Time_le in *. lia.
Qed.

(** C3.  One turn of the watcher's loop on a logger [L], the clock being
    read at the tick after the sleep.  The read-locked comparison yields
    [shouldRotate = true] exactly when the day of the month of [L]'s stored
    date differs from the day of the month of that reading.  When the two
    agree the turn ends there, nothing but the tick changed.  When they
    differ the turn rotates: it either panics because the new file could not
    be opened, or it has opened one more file, under [L]'s directory, and
    installed the sink that writes to it.  And a second turn, when every
    clock reading from the first turn's check to the second turn's check is
    on one calendar day, opens nothing and swaps nothing. *)
Theorem watcher_rotates_iff_day_differs (ll : nat) (w : World) (L : Logger) :
  heap w !! ll = Some L ->
  let now := clock (os w) (S (tick w)) in
  let w0 := setTick (S (S (tick w))) w in
  shouldRotate ll (setTick (S (tick w)) w)
    = Ok (negb (Day (today L) =? Day now)%Z) w0 /\
  (Day (today L) = Day now -> watcherLoopBody ll w = Ok tt w0) /\
  (Day (today L) <> Day now ->
   watcherLoopBody ll w = rotate ll w0 /\
   match watcherLoopBody ll w with
   | Ok _ w1 =>
       fds w1 = (fds w ++ [codeLogFileName (logsDict L)
                             (clock (os w) (S (S (tick w))))])%list /\
       exists t, heap w1 !! ll
                 = Some (withToday t (withLogger (prodSink (length (fds w))) L))
   | Panic e _ => openFails (os w) (S (S (tick w))) (logsDict L) e
   end) /\
  (forall w1,
      watcherLoopBody ll w = Ok tt w1 ->
      sameDayBetween (os w) (S (tick w)) (S (tick w1)) ->
      watcherLoopBody ll w1 = Ok tt (setTick (S (S (tick w1))) w1)).
Proof.
  intros H. cbn zeta.
  assert (Hlt : ll < length (heap w)) by now apply lookup_lt_Some in H.
  split; [now rewrite (shouldRotate_run ll _ L)|].
  rewrite (watcherLoopBody_run ll w L H).
  destruct (Z.eqb_spec (Day (today L)) (Day (clock (os w) (S (tick w))))) as [E|E].
  - split; [reflexivity|]. split; [intros C; contradiction|].
    intros w1 Hw1 Hday. injection Hw1 as <-.
    rewrite (watcherLoopBody_run ll _ L) by exact H. cbn.
    destruct (Hday (S (S (S (tick w))))) as (_ & _ & Hd); [cbn; lia|].
    unfold Day in *. rewrite E, Hd, Z.eqb_refl. reflexivity.
  - split; [intros C; contradiction|]. split.
    + intros _. split; [reflexivity|].
      rewrite (rotate_run ll _ L) by exact H. cbn.
      unfold openFails.
      destruct (mkdirErr _ _ _); [now left|].
      destruct (openErr _ _ _) eqn:Ho; [right; now split|].
      cbn. split; [reflexivity|]. eexists.
      now rewrite list_lookup_insert_eq.
    + intros w1 Hw1 Hday. rewrite (rotate_run ll _ L) in Hw1 by exact H.
      cbn in Hw1.
      destruct (mkdirErr _ _ _); [discriminate|].
      destruct (openErr _ _ _); [discriminate|].
      injection Hw1 as <-. cbn in Hday.
      erewrite watcherLoopBody_run
        by (cbn; now rewrite list_lookup_insert_eq).
      cbn.
      destruct (Hday (5 + tick w)) as (_ & _ & Hd5); [lia|].
      destruct (Hday (7 + tick w)) as (_ & _ & Hd7); [lia|].
      unfold Day. cbn in Hd5, Hd7. rewrite <- Hd5, Hd7, Z.eqb_refl. reflexivity.
Qed.

Lemma watcher_rotates_iff_day_differs_witness :
  exists L,
    heap prodWorld !! 0 = Some L /\
    Day (today L) = Day (clock (os prodWorld) 5) /\
    watcherLoopBody 0 prodWorld = Ok tt (setTick 6 prodWorld) /\
    sameDayBetween (os prodWorld) 5 7 /\
    watcherLoopBody 0 (setTick 6 prodWorld) = Ok tt (setTick 8 prodWorld).
Proof.
  eexists. split; [reflexivity|]. split; [reflexivity|].
  destruct (watcher_rotates_iff_day_differs 0 prodWorld _ eq_refl)
    as (_ & Hsame & _ & Htwice).
  assert (Hday : sameDayBetween (os prodWorld) 5 7).
  { intros i [Ha Hb].
    assert (Hi : i = 5 \/ i = 6 \/ i = 7) by lia.
    destruct Hi as [-> | [-> | ->]]; repeat split. }
  split; [apply Hsame; reflexivity|].
  split; [exact Hday|].
  apply (Htwice (setTick 6 prodWorld)); [apply Hsame; reflexivity|exact Hday].
Defined.

(** ** What a rotation leaves alone *)

Lemma worldOf_bind {A B} (m : M A) (k : A -> M B) (w : World) :
  worldOf (bind m k w) =
  match m w with
  | Ok a w1 => worldOf (k a w1)
  | Panic _ w1 => w1
  end.
Proof. unfold bind. destruct (m w); reflexivity. Qed.

(** One turn, seen from the logger it serves. *)
Lemma watcherLoopBody_own (ll : nat) (w : World) (L : Logger) :
  heap w !! ll = Some L ->
  let w' := worldOf (watcherLoopBody ll w) in
  (heap w' = heap w /\ fds w' = fds w /\ dirs w' = dirs w) \/
  (exists t nm,
      heap w' = <[ll := withToday t (withLogger (prodSink (length (fds w))) L)]>
                  (heap w) /\
      fds w' = (fds w ++ [codeLogFileName (logsDict L) nm])%list /\
      dirs w' = logsDict L :: dirs w) \/
  (heap w' = heap w /\ fds w' = fds w /\
   (dirs w' = dirs w \/ dirs w' = logsDict L :: dirs w)).
Proof.
  intros H. cbn zeta. rewrite (watcherLoopBody_run ll w L H).
  destruct (Day (today L) =? Day _)%Z; [left; now cbn|].
  rewrite (rotate_run ll _ L) by exact H. cbn.
  destruct (mkdirErr _ _ _); [left; now cbn|].
  destruct (openErr _ _ _); [right; right; cbn; auto|].
  right; left. cbn. eauto.
Qed.

(** One turn, seen from everything else. *)
Lemma watcherLoopBody_others (g : nat) (w : World) :
  let w' := worldOf (watcherLoopBody g w) in
  os w' = os w /\ instance w' = instance w /\ slogDefault w' = slogDefault w /\
  goroutines w' = goroutines w /\
  forall a, a <> g -> heap w' !! a = heap w !! a.
Proof.
  cbn zeta. destruct (heap w !! g) as [L|] eqn:H.
  - rewrite (watcherLoopBody_run g w L H).
    destruct (Day (today L) =? Day _)%Z; [now cbn|].
    rewrite (rotate_run g _ L) by exact H. cbn.
    destruct (mkdirErr _ _ _); [now cbn|].
    destruct (openErr _ _ _); [now cbn|].
    cbn. repeat split. intros a Ha. now apply list_lookup_insert_ne.
  - unfold watcherLoopBody, shouldRotate. exec. rewrite H. now cbn.
Qed.

(** C10.  However many turns the watcher's loop makes for a logger, and
    whether or not it ends in a panic, the logger's record afterwards is the
    record before with at most the sink and the date replaced: mode,
    category, directory and [logFile] are the ones it was built with.  Every
    file the loop opened is named by that directory followed by a date and
    [.txt], and every directory it asked [MkdirAll] for is that
    directory. *)
Theorem rotation_keeps_configuration (n ll : nat) (w : World) (L : Logger) :
  heap w !! ll = Some L ->
  let w' := worldOf (watcherLoop n ll w) in
  (exists s t, heap w' !! ll = Some (withToday t (withLogger s L))) /\
  (exists L', heap w' !! ll = Some L' /\
              logsDict L' = logsDict L /\ mod_ L' = mod_ L /\
              LoggerType L' = LoggerType L /\ logFile L' = logFile L) /\
  (exists names, fds w' = (fds w ++ names)%list /\
                 Forall (fun nm => exists t, nm = codeLogFileName (logsDict L) t)
                        names) /\
  (exists ds, dirs w' = (ds ++ dirs w)%list /\ Forall (eq (logsDict L)) ds).
Proof.
  cbn zeta. revert w L.
  assert (Hid : forall L : Logger, L = withToday (today L) (withLogger (slogLogger L) L))
    by (intros []; reflexivity).
  induction n as [|n IH]; intros w L H.
  - cbn. split; [exists (slogLogger L), (today L); now rewrite <- Hid|].
    split; [now exists L|].
    split; [exists []; split; [now rewrite app_nil_r|constructor]|].
    exists []. split; [reflexivity|constructor].
  - cbn [watcherLoop]. rewrite worldOf_bind.
    pose proof (watcherLoopBody_own ll w L H) as Hown. cbn zeta in Hown.
    assert (Hlt : ll < length (heap w)) by now apply lookup_lt_Some in H.
    destruct (watcherLoopBody ll w) as [[] w1|e w1]; cbn [worldOf] in Hown.
    + destruct Hown as [(Hh & Hf & Hd)|[(t & nm & Hh & Hf & Hd)|(Hh & Hf & Hd)]].
      * destruct (IH w1 L) as (Ha & Hb & (names & Hn & Hall) & (ds & Hds & Hdall));
          [now rewrite Hh|].
        split; [exact Ha|]. split; [exact Hb|].
        split; [exists names; now rewrite Hn, Hf|].
        exists ds. now rewrite Hds, Hd.
      * destruct (IH w1 (withToday t (withLogger (prodSink (length (fds w))) L)))
          as ((s' & t' & Ha) & (L' & Hb) & (names & Hn & Hall) & (ds & Hds & Hdall));
          [rewrite Hh; now apply list_lookup_insert_eq|].
        cbn in Hb, Hall, Hdall.
        split; [exists s', t'; exact Ha|]. split; [now exists L'|].
        split.
        -- exists (codeLogFileName (logsDict L) nm :: names). split.
           ++ rewrite Hn, Hf, <- app_assoc. reflexivity.
           ++ constructor; [now exists nm|exact Hall].
        -- exists (ds ++ [logsDict L])%list. split.
           ++ rewrite Hds, Hd, <- app_assoc. reflexivity.
           ++ apply Forall_app. split; [exact Hdall|]. now constructor.
      * destruct (IH w1 L) as (Ha & Hb & (names & Hn & Hall) & (ds & Hds & Hdall));
          [now rewrite Hh|].
        split; [exact Ha|]. split; [exact Hb|].
        split; [exists names; now rewrite Hn, Hf|].
        destruct Hd as [Hd|Hd].
        -- exists ds. now rewrite Hds, Hd.
        -- exists (ds ++ [logsDict L])%list. split.
           ++ rewrite Hds, Hd, <- app_assoc. reflexivity.
           ++ apply Forall_app. split; [exact Hdall|]. now constructor.
    + destruct Hown as [(Hh & Hf & Hd)|[(t & nm & Hh & Hf & Hd)|(Hh & Hf & Hd)]].
      * split; [exists (slogLogger L), (today L); now rewrite Hh, <- Hid|].
        split; [exists L; now rewrite Hh|].
        split; [exists []; split; [now rewrite app_nil_r|constructor]|].
        exists []. split; [now rewrite Hd|constructor].
      * split; [exists (prodSink (length (fds w))), t; rewrite Hh;
                now apply list_lookup_insert_eq|].
        split; [eexists; split; [rewrite Hh; now apply list_lookup_insert_eq|now cbn]|].
        split; [exists [codeLogFileName (logsDict L) nm]; split;
                [exact Hf|constructor; [now exists nm|constructor]]|].
        exists [logsDict L]. split; [now rewrite Hd|now repeat constructor].
      * split; [exists (slogLogger L), (today L); now rewrite Hh, <- Hid|].
        split; [exists L; now rewrite Hh|].
        split; [exists []; split; [now rewrite app_nil_r|constructor]|].
        destruct Hd as [Hd|Hd].
        -- exists []. split; [now rewrite Hd|constructor].
        -- exists [logsDict L]. split; [now rewrite Hd|now repeat constructor].
Qed.

Lemma rotation_keeps_configuration_witness :
  exists L,
    heap prodWorld !! 0 = Some L /\
    exists L', heap (worldOf (watcherLoop 6 0 prodWorld)) !! 0 = Some L' /\
               logsDict L' = logsDict L /\ mod_ L' = mod_ L /\
               LoggerType L' = LoggerType L /\ logFile L' = logFile L.
Proof.
  eexists. split; [reflexivity|].
  apply (rotation_keeps_configuration 6 0 prodWorld _ eq_refl).
Defined.

(** ** Who gets a watcher *)

Lemma runWatchers_frame (sched : list nat) (w : World) (ll : nat) :
  ~ In ll sched ->
  heap (worldOf (runWatchers sched w)) !! ll = heap w !! ll.
Proof.
  revert w. induction sched as [|g rest IH]; intros w Hnot; [reflexivity|].
  cbn [runWatchers]. rewrite worldOf_bind.
  pose proof (watcherLoopBody_others g w) as (_ & _ & _ & _ & Hheap).
  assert (Hne : ll <> g) by (intros ->; apply Hnot; now left).
  destruct (watcherLoopBody g w) as [[] w1|e w1]; cbn [worldOf] in Hheap.
  - rewrite IH by (intros Hin; apply Hnot; now right). now apply Hheap.
  - now apply Hheap.
Qed.

(** A logger that no watcher serves is never rotated. *)
Lemma unwatched_neverRotated (w : World) (ll : nat) (L : Logger) :
  heap w !! ll = Some L -> ~ In ll (goroutines w) -> neverRotated w ll L.
Proof.
  intros H Hnot sched Hsched. rewrite runWatchers_frame; [exact H|].
  intros Hin. apply Hnot. rewrite List.Forall_forall in Hsched. now apply Hsched.
Qed.

(** Start-up, the constructors and the watchers' turns all keep every
    watcher on an existing logger; the process starts that way. *)
Lemma goroutinesAllocated_invariant (w : World) :
  goroutinesAllocated w ->
  goroutinesAllocated (worldOf (init w)) /\
  (forall dict, goroutinesAllocated (worldOf (CreateProdLogger dict w))) /\
  goroutinesAllocated (worldOf (CreateDevLogger w)) /\
  (forall m dict, goroutinesAllocated (worldOf (CreateRequestLogger m dict w))) /\
  (forall g, goroutinesAllocated (worldOf (watcherLoopBody g w))).
Proof.
  intros Hwf.
  assert (Hsame : forall w', goroutines w' = goroutines w ->
                             length (heap w) <= length (heap w') ->
                             goroutinesAllocated w').
  { intros w' Hg Hl g Hin. rewrite Hg in Hin. apply Hwf in Hin. lia. }
  assert (Hnew : forall w' L,
             goroutines w' = (goroutines w ++ [length (heap w)])%list ->
             heap w' = (heap w ++ [L])%list ->
             goroutinesAllocated w').
  { intros w' L Hg Hh g Hin. rewrite Hg in Hin. rewrite Hh, length_app. cbn.
    apply in_app_or in Hin. destruct Hin as [Hin|[<-|[]]]; [|lia].
    apply Hwf in Hin. lia. }
  assert (Hgrow : forall L : Logger, length (heap w) <= length (heap w ++ [L])).
  { intros L. rewrite length_app. lia. }
  repeat split.
  - destruct (String.eqb_spec (envMod w) ModProd) as [E|E].
    + rewrite (init_prod w E). cbn zeta.
      destruct (mkdirErr _ _ _); [apply Hsame; [reflexivity|apply Hgrow]|].
      destruct (openErr _ _ _); [apply Hsame; [reflexivity|apply Hgrow]|].
      eapply Hnew; reflexivity.
    + rewrite (init_dev w E). apply Hsame; [reflexivity|apply Hgrow].
  - intros dict. rewrite CreateProdLogger_run. cbn zeta.
    destruct (mkdirErr _ _ _); [apply Hsame; [reflexivity|apply Hgrow]|].
    destruct (openErr _ _ _); [apply Hsame; [reflexivity|apply Hgrow]|].
    eapply Hnew; reflexivity.
  - rewrite CreateDevLogger_run. apply Hsame; [reflexivity|apply Hgrow].
  - intros m dict. destruct (String.eqb_spec m ModProd) as [->|E].
    + rewrite CreateRequestLogger_prod. cbn zeta.
      destruct (mkdirErr _ _ _); [apply Hsame; [reflexivity|apply Hgrow]|].
      destruct (openErr _ _ _); [apply Hsame; [reflexivity|apply Hgrow]|].
      eapply Hnew; reflexivity.
    + rewrite (CreateRequestLogger_dev m dict w E).
      apply Hsame; [reflexivity|apply Hgrow].
  - intros g. destruct (heap w !! g) as [L|] eqn:H.
    + rewrite (watcherLoopBody_run g w L H).
      destruct (Day (today L) =? Day _)%Z; [now apply Hsame|].
      rewrite (rotate_run g _ L) by exact H. cbn.
      destruct (mkdirErr _ _ _); [now apply Hsame|].
      destruct (openErr _ _ _); [now apply Hsame|].
      apply Hsame; [reflexivity|]. cbn. now rewrite length_insert.
    + unfold watcherLoopBody, shouldRotate. exec. rewrite H. now apply Hsame.
Qed.

Lemma goroutinesAllocated_initial (o : Oracle) : goroutinesAllocated (initialWorld o).
Proof. intros g []. Qed.

(** C8.  In a process whose watchers all serve existing loggers, a
    constructor starts a watcher for the logger it builds exactly when that
    logger's mode is ["prod"].  With any other mode ([init] under such an
    environment, [CreateDevLogger], [CreateRequestLogger] with such a mode)
    the call succeeds, the new logger is served by no watcher, and whatever
    turns the running watchers take its record, sink included, stays as
    built.  With mode ["prod"] ([init], [CreateRequestLogger],
    [CreateProdLogger]) and the file opened, the call succeeds and the new
    logger's watcher is running. *)
Theorem watcher_started_iff_prod (w : World) :
  goroutinesAllocated w ->
  let ll := length (heap w) in
  (envMod w <> ModProd ->
   exists w' L, init w = Ok tt w' /\ instance w' = Some ll /\
                heap w' !! ll = Some L /\ mod_ L = envMod w /\
                ~ In ll (goroutines w') /\ neverRotated w' ll L) /\
  (envMod w = ModProd ->
   openSucceeds (os w) (S (tick w)) (envPath w) ->
   exists w' L, init w = Ok tt w' /\ instance w' = Some ll /\
                heap w' !! ll = Some L /\ mod_ L = ModProd /\
                In ll (goroutines w')) /\
  (exists w' L, CreateDevLogger w = Ok tt w' /\ instance w' = Some ll /\
                heap w' !! ll = Some L /\ mod_ L = ModDev /\
                ~ In ll (goroutines w') /\ neverRotated w' ll L) /\
  (forall m dict,
      m <> ModProd ->
      exists w' L, CreateRequestLogger m dict w = Ok ll w' /\
                   heap w' !! ll = Some L /\ mod_ L = m /\
                   ~ In ll (goroutines w') /\ neverRotated w' ll L) /\
  (forall dict,
      openSucceeds (os w) (S (tick w)) (requestPath dict) ->
      exists w' L, CreateRequestLogger ModProd dict w = Ok ll w' /\
                   heap w' !! ll = Some L /\ mod_ L = ModProd /\
                   In ll (goroutines w')) /\
  (forall dict,
      openSucceeds (os w) (S (tick w)) (orDefault dict DefaultServicePath) ->
      exists w' L, CreateProdLogger dict w = Ok tt w' /\ instance w' = Some ll /\
                   heap w' !! ll = Some L /\ mod_ L = ModProd /\
                   In ll (goroutines w')).
Proof.
  intros Hwf. cbn zeta.
  assert (Hfresh : ~ In (length (heap w)) (goroutines w)).
  { intros Hin. apply Hwf in Hin. lia. }
  unfold openSucceeds. repeat split.
  - intros Hm. rewrite (init_dev w Hm). do 2 eexists.
    split; [reflexivity|]. split; [reflexivity|].
    split; [cbn; now rewrite lookup_snoc|]. split; [reflexivity|].
    split; [exact Hfresh|].
    apply unwatched_neverRotated; [cbn; now rewrite lookup_snoc|exact Hfresh].
  - intros Hm [H1 H2]. rewrite (init_prod w Hm). cbn zeta. cbn [Nat.add].
    rewrite H1, H2. do 2 eexists.
    split; [reflexivity|]. split; [reflexivity|].
    cbn. rewrite lookup_snoc. split; [reflexivity|]. split; [reflexivity|].
    apply in_or_app. right. now left.
  - rewrite CreateDevLogger_run. do 2 eexists.
    split; [reflexivity|]. split; [reflexivity|].
    split; [cbn; now rewrite lookup_snoc|]. split; [reflexivity|].
    split; [exact Hfresh|].
    apply unwatched_neverRotated; [cbn; now rewrite lookup_snoc|exact Hfresh].
  - intros m dict Hm. rewrite (CreateRequestLogger_dev m dict w Hm). do 2 eexists.
    split; [reflexivity|].
    split; [cbn; now rewrite lookup_snoc|]. split; [reflexivity|].
    split; [exact Hfresh|].
    apply unwatched_neverRotated; [cbn; now rewrite lookup_snoc|exact Hfresh].
  - intros dict [H1 H2]. rewrite CreateRequestLogger_prod. cbn zeta. cbn [Nat.add].
    rewrite H1, H2. do 2 eexists. split; [reflexivity|].
    cbn. rewrite lookup_snoc. split; [reflexivity|]. split; [reflexivity|].
    apply in_or_app. right. now left.
  - intros dict [H1 H2]. rewrite CreateProdLogger_run. cbn zeta. cbn [Nat.add].
    rewrite H1, H2. do 2 eexists.
    split; [reflexivity|]. split; [reflexivity|].
    cbn. rewrite lookup_snoc. split; [reflexivity|]. split; [reflexivity|].
    apply in_or_app. right. now left.
Qed.

Lemma watcher_started_iff_prod_witness :
  let w := initialWorld (calmOracle prodEnv) in
  goroutinesAllocated w /\
  envMod w = ModProd /\
  openSucceeds (os w) (S (tick w)) (envPath w) /\
  (exists w' L, init w = Ok tt w' /\ instance w' = Some 0 /\
                heap w' !! 0 = Some L /\ mod_ L = ModProd /\
                In 0 (goroutines w')) /\
  (exists w' L, CreateDevLogger w = Ok tt w' /\ instance w' = Some 0 /\
                heap w' !! 0 = Some L /\ mod_ L = ModDev /\
                ~ In 0 (goroutines w') /\ neverRotated w' 0 L).
Proof.
  cbn zeta.
  assert (Hwf : goroutinesAllocated (initialWorld (calmOracle prodEnv)))
    by (intros g []).
  assert (Hopen : openSucceeds (os (initialWorld (calmOracle prodEnv)))
                    (S (tick (initialWorld (calmOracle prodEnv))))
                    (envPath (initialWorld (calmOracle prodEnv))))
    by (split; reflexivity).
  split; [exact Hwf|]. split; [reflexivity|]. split; [exact Hopen|].
  destruct (watcher_started_iff_prod (initialWorld (calmOracle prodEnv)) Hwf)
    as (_ & Hprod & Hdev & _).
  split; [apply Hprod; [reflexivity|exact Hopen]|exact Hdev].
Defined.

(** ** What construction yields *)

(** C1, as stated, fails: after a production construction that opened its
    file, the instance's own [logFile] is nil.  No constructor assigns the
    field; the open file is reachable through the sink only. *)
Lemma prod_logger_logFile_is_nil :
  exists w' L,
    CreateProdLogger "/tmp/t1/" (initialWorld (calmOracle noEnv)) = Ok tt w' /\
    instance w' = Some 0 /\ heap w' !! 0 = Some L /\
    mod_ L = ModProd /\ logsDict L = "/tmp/t1/" /\
    logFile L = None /\
    ~ (exists f, logFile L = Some f /\ fds w' !! f = Some "/tmp/t1/2024-01-15.txt").
Proof.
  rewrite CreateProdLogger_run. cbn.
  do 2 eexists. split; [reflexivity|].
  repeat (split; [reflexivity|]).
  intros (f & Hf & _). discriminate Hf.
Qed.

(** C1, amended.  Construction yields a logger with a non-nil sink
    whenever it does not have to open a file, or the directory could be
    made and the file opened.  Outside production the sink is the
    development handler and no file is opened.  In production the sink is
    the JSON handler on stdout and on a file opened by this call, and when
    the directory is written with its trailing separator that file is
    [<path><today>.txt], the date being read when the file is opened.  The
    open file is held by the sink: the instance's [logFile] stays nil.  A
    rotation, likewise, installs a sink on a file it has just opened and
    leaves [logFile] as it was. *)
Theorem construction_yields_sink (w : World) :
  let ll := length (heap w) in
  let t := clock (os w) (S (tick w)) in
  let devBuilt (w' : World) (L : Logger) :=
    heap w' !! ll = Some L /\ slogLogger L = Some (slogNew devHandler) /\
    logFile L = None /\ fds w' = fds w in
  let prodBuilt (path : Path) (w' : World) (L : Logger) :=
    heap w' !! ll = Some L /\ logsDict L = path /\
    slogLogger L = prodSink (length (fds w)) /\
    logFile L = None /\ length (fds w') = S (length (fds w)) /\
    (endsWithSlash path = true ->
     sinkFile w' L = Some (specLogFileName path t)) in
  (envMod w <> ModProd ->
   exists w' L, init w = Ok tt w' /\ instance w' = Some ll /\ devBuilt w' L) /\
  (envMod w = ModProd ->
   openSucceeds (os w) (S (tick w)) (envPath w) ->
   exists w' L, init w = Ok tt w' /\ instance w' = Some ll /\
                prodBuilt (envPath w) w' L) /\
  (forall dict,
      openSucceeds (os w) (S (tick w)) (orDefault dict DefaultServicePath) ->
      exists w' L, CreateProdLogger dict w = Ok tt w' /\ instance w' = Some ll /\
                   prodBuilt (orDefault dict DefaultServicePath) w' L) /\
  (forall dict,
      openSucceeds (os w) (S (tick w)) (requestPath dict) ->
      exists w' L, CreateRequestLogger ModProd dict w = Ok ll w' /\
                   prodBuilt (requestPath dict) w' L) /\
  (forall m dict,
      m <> ModProd ->
      exists w' L, CreateRequestLogger m dict w = Ok ll w' /\ devBuilt w' L) /\
  (exists w' L, CreateDevLogger w = Ok tt w' /\ instance w' = Some ll /\
                devBuilt w' L) /\
  (forall a La,
      heap w !! a = Some La ->
      openSucceeds (os w) (tick w) (logsDict La) ->
      exists w' L', rotate a w = Ok tt w' /\ heap w' !! a = Some L' /\
                    slogLogger L' = prodSink (length (fds w)) /\
                    logFile L' = logFile La /\
                    length (fds w') = S (length (fds w)) /\
                    (endsWithSlash (logsDict La) = true ->
                     sinkFile w' L'
                     = Some (specLogFileName (logsDict La) (clock (os w) (tick w))))).
Proof.
  cbn zeta.
  assert (Hprod : forall path w' L,
             fds w' = (fds w ++ [codeLogFileName path (clock (os w) (S (tick w)))])%list ->
             slogLogger L = prodSink (length (fds w)) ->
             length (fds w') = S (length (fds w)) /\
             (endsWithSlash path = true ->
              sinkFile w' L = Some (specLogFileName path (clock (os w) (S (tick w)))))).
  { intros path w' L Hf Hs. split.
    - rewrite Hf, length_app. cbn. lia.
    - intros Hslash. unfold sinkFile. rewrite Hs. cbn.
      rewrite Hf, lookup_snoc. f_equal. now apply codeLogFileName_spec. }
  unfold openSucceeds. repeat split.
  - intros Hm. rewrite (init_dev w Hm). do 2 eexists.
    split; [reflexivity|]. split; [reflexivity|].
    split; [cbn; now rewrite lookup_snoc|]. now cbn.
  - intros Hm [H1 H2]. rewrite (init_prod w Hm). cbn zeta. cbn [Nat.add].
    rewrite H1, H2. do 2 eexists.
    split; [reflexivity|]. split; [reflexivity|].
    split; [cbn; now rewrite lookup_snoc|].
    split; [reflexivity|]. split; [reflexivity|]. split; [reflexivity|].
    now apply Hprod.
  - intros dict [H1 H2]. rewrite CreateProdLogger_run. cbn zeta. cbn [Nat.add].
    rewrite H1, H2. do 2 eexists.
    split; [reflexivity|]. split; [reflexivity|].
    split; [cbn; now rewrite lookup_snoc|].
    split; [reflexivity|]. split; [reflexivity|]. split; [reflexivity|].
    now apply Hprod.
  - intros dict [H1 H2]. rewrite CreateRequestLogger_prod. cbn zeta. cbn [Nat.add].
    rewrite H1, H2. do 2 eexists. split; [reflexivity|].
    split; [cbn; now rewrite lookup_snoc|].
    split; [reflexivity|]. split; [reflexivity|]. split; [reflexivity|].
    now apply Hprod.
  - intros m dict Hm. rewrite (CreateRequestLogger_dev m dict w Hm). do 2 eexists.
    split; [reflexivity|].
    split; [cbn; now rewrite lookup_snoc|]. now cbn.
  - rewrite CreateDevLogger_run. do 2 eexists.
    split; [reflexivity|]. split; [reflexivity|].
    split; [cbn; now rewrite lookup_snoc|]. now cbn.
  - intros a La Ha [H1 H2]. rewrite (rotate_run a w La Ha). cbn zeta.
    rewrite H1, H2. do 2 eexists. split; [reflexivity|].
    split; [cbn; apply list_lookup_insert_eq; now apply lookup_lt_Some in Ha|].
    split; [reflexivity|]. split; [reflexivity|].
    split; [cbn; rewrite length_app; cbn; lia|].
    intros Hslash. unfold sinkFile. cbn. rewrite lookup_snoc. f_equal.
    now apply codeLogFileName_spec.
Qed.

Lemma construction_yields_sink_witness :
  let w := initialWorld (calmOracle prodEnv) in
  envMod w = ModProd /\
  openSucceeds (os w) (S (tick w)) (envPath w) /\
  endsWithSlash (envPath w) = true /\
  exists w' L,
    init w = Ok tt w' /\ instance w' = Some 0 /\ heap w' !! 0 = Some L /\
    slogLogger L = prodSink 0 /\ logFile L = None /\
    sinkFile w' L = Some "/tmp/t1/2024-01-15.txt".
Proof.
  cbn zeta.
  assert (Hopen : openSucceeds (os (initialWorld (calmOracle prodEnv)))
                    (S (tick (initialWorld (calmOracle prodEnv))))
                    (envPath (initialWorld (calmOracle prodEnv))))
    by (split; reflexivity).
  split; [reflexivity|]. split; [exact Hopen|]. split; [reflexivity|].
  destruct (construction_yields_sink (initialWorld (calmOracle prodEnv)))
    as (_ & Hprod & _ & _ & _ & _ & _).
  destruct (Hprod eq_refl Hopen)
    as (w' & L & Hrun & Hinst & HL & _ & Hsink & Hfile & _ & Hname).
  exists w', L. repeat (split; [assumption|]).
  now apply Hname.
Defined.

(** ** The swap, seen from other goroutines *)

(** [midnightWorld] is where three quiet turns of the watcher leave the
    production process. *)
Lemma midnightWorld_reached :
  watcherLoop 3 0 prodWorld = Ok tt midnightWorld.
Proof. vm_compute. reflexivity. Qed.

(** C4, as stated, fails.  At midnight the watcher of the production
    logger makes its five steps; a goroutine that takes the read lock after
    the [setLogger] step and before the [ll.today = time.Now()] step sees
    the new sink, on file 1, together with the old date, 15 January: a pair
    that is neither the state before the rotation nor the state after
    it. *)
Lemma rotation_shows_new_sink_with_old_date :
  let old := prodSink 0 in
  let new := prodSink 1 in
  observedDuring 5 0 Sleeping midnightWorld
  = [ (old, jan 15 0); (old, jan 15 0); (old, jan 15 0); (old, jan 15 0);
      (new, jan 15 0); (new, jan 16 15) ] /\
  (new, jan 15 0) <> (old, jan 15 0) /\
  (new, jan 15 0) <> (new, jan 16 15).
Proof.
  cbn zeta. split; [vm_compute; reflexivity|]. split; discriminate.
Qed.

(** C4, amended.  A rotation replaces the sink and the date in two
    write-locked regions, the sink first.  From the point where the watcher
    has decided to rotate a logger [L], and when the new file can be opened,
    the pairs a goroutine holding the read lock can see are, in order:
    [L]'s sink with [L]'s date (before and after the file is opened), the
    new sink with [L]'s date, the new sink with the new date.  Each field
    changes once, in a single step, and the old sink is never seen with the
    new date. *)
Theorem rotation_swaps_in_two_steps (ll : nat) (w : World) (L : Logger) :
  heap w !! ll = Some L ->
  openSucceeds (os w) (tick w) (logsDict L) ->
  let new := prodSink (length (fds w)) in
  let date := clock (os w) (S (S (S (tick w)))) in
  observedDuring 3 ll Opening w
  = [ (slogLogger L, today L); (slogLogger L, today L);
      (new, today L); (new, date) ] /\
  forall o, In o (observedDuring 3 ll Opening w) ->
            snd o = today L \/ fst o = new.
Proof.
  intros H [H1 H2]. cbn zeta.
  assert (Hlt : ll < length (heap w)) by now apply lookup_lt_Some in H.
  assert (Hobs : observedDuring 3 ll Opening w
                 = [ (slogLogger L, today L); (slogLogger L, today L);
                     (prodSink (length (fds w)), today L);
                     (prodSink (length (fds w)), clock (os w) (S (S (S (tick w))))) ]).
  { cbn [observedDuring watcherStep]. unfold observe. exec. rewrite H. cbn.
    rewrite prodHandler_run. cbn. rewrite H1, H2. exec. rewrite H. exec.
    rewrite H. cbn.
    rewrite list_lookup_insert_eq by exact Hlt. exec.
    rewrite list_lookup_insert_eq by exact Hlt. exec.
    rewrite list_lookup_insert_eq by (now rewrite length_insert).
    reflexivity. }
  split; [exact Hobs|].
  intros o Hin. rewrite Hobs in Hin. cbn in Hin.
  destruct Hin as [<- | [<- | [<- | [<- | []]]]]; cbn; auto.
Qed.

Lemma rotation_swaps_in_two_steps_witness :
  let w := setTick 12 prodWorld in
  exists L,
    heap w !! 0 = Some L /\
    openSucceeds (os w) (tick w) (logsDict L) /\
    observedDuring 3 0 Opening w
    = [ (prodSink 0, jan 15 0); (prodSink 0, jan 15 0);
        (prodSink 1, jan 15 0); (prodSink 1, jan 16 15) ].
Proof.
  cbn zeta. eexists. split; [reflexivity|].
  assert (Hopen : openSucceeds (os (setTick 12 prodWorld)) (tick (setTick 12 prodWorld))
                    "/tmp/t1/") by (split; reflexivity).
  split; [exact Hopen|].
  apply (rotation_swaps_in_two_steps 0 (setTick 12 prodWorld) _ eq_refl Hopen).
Defined.

(** * Further properties of the code *)

(** ** The test bench, run *)

Lemma prodEnv_prod : envMod (initialWorld (calmOracle prodEnv)) = ModProd.
Proof. reflexivity. Qed.

Lemma prodWorld_run : init (initialWorld (calmOracle prodEnv)) = Ok tt prodWorld.
Proof. unfold prodWorld. rewrite (init_prod _ prodEnv_prod). reflexivity. Qed.

Lemma prodWorld_eq :
  prodWorld
  = mkWorld (calmOracle prodEnv) 4 ["/tmp/t1/"] ["/tmp/t1/2024-01-15.txt"]
      [mkLogger (prodSink 0) None "/tmp/t1/" "prod" "service" (jan 15 0)]
      (Some 0) (slogNew (JSONHandler [Stdout; FileWriter 0] true LevelDebug)) [0].
Proof. unfold prodWorld. rewrite (init_prod _ prodEnv_prod). reflexivity. Qed.

Lemma midnightWorld_eq :
  midnightWorld
  = mkWorld (calmOracle prodEnv) 10 ["/tmp/t1/"] ["/tmp/t1/2024-01-15.txt"]
      [mkLogger (prodSink 0) None "/tmp/t1/" "prod" "service" (jan 15 0)]
      (Some 0) (slogNew (JSONHandler [Stdout; FileWriter 0] true LevelDebug)) [0].
Proof. unfold midnightWorld. rewrite prodWorld_eq. reflexivity. Qed.

Lemma failingNightWorld_eq :
  failingNightWorld
  = mkWorld (failingNightOracle prodEnv) 10 ["/tmp/t1/"] ["/tmp/t1/2024-01-15.txt"]
      [mkLogger (prodSink 0) None "/tmp/t1/" "prod" "service" (jan 15 0)]
      (Some 0) (slogNew (JSONHandler [Stdout; FileWriter 0] true LevelDebug)) [0].
Proof.
  unfold failingNightWorld.
  rewrite (init_prod (initialWorld (failingNightOracle prodEnv)) eq_refl).
  reflexivity.
Qed.

(** ** Installing the singleton *)

(** X1.  When [init], [CreateProdLogger] or [CreateDevLogger] returns, the
    package variable names the logger the call has built, so [Get()]
    returns it, and the [slog] default logger is that logger's sink. *)
Theorem constructors_install_singleton (w w' : World) :
  init w = Ok tt w' \/
  (exists dict, CreateProdLogger dict w = Ok tt w') \/
  CreateDevLogger w = Ok tt w' ->
  let ll := length (heap w) in
  Get w' = Ok (Some ll) w' /\
  exists L, heap w' !! ll = Some L /\ slogLogger L = Some (slogDefault w').
Proof.
  cbn zeta. intros [H|[[dict H]|H]].
  - destruct (String.eqb_spec (envMod w) ModProd) as [E|E].
    + rewrite (init_prod w E) in H. cbn zeta in H.
      destruct (mkdirErr _ _ _); [discriminate|].
      destruct (openErr _ _ _); [discriminate|].
      injection H as <-. split; [reflexivity|].
      eexists. cbn. rewrite lookup_snoc. split; reflexivity.
    + rewrite (init_dev w E) in H. injection H as <-. split; [reflexivity|].
      eexists. cbn. rewrite lookup_snoc. split; reflexivity.
  - rewrite CreateProdLogger_run in H. cbn zeta in H.
    destruct (mkdirErr _ _ _); [discriminate|].
    destruct (openErr _ _ _); [discriminate|].
    injection H as <-. split; [reflexivity|].
    eexists. cbn. rewrite lookup_snoc. split; reflexivity.
  - rewrite CreateDevLogger_run in H. injection H as <-. split; [reflexivity|].
    eexists. cbn. rewrite lookup_snoc. split; reflexivity.
Qed.

Lemma constructors_install_singleton_witness :
  init (initialWorld (calmOracle prodEnv)) = Ok tt prodWorld /\
  Get prodWorld = Ok (Some 0) prodWorld /\
  exists L, heap prodWorld !! 0 = Some L /\
            slogLogger L = Some (slogDefault prodWorld).
Proof.
  pose proof prodWorld_run as H.
  split; [exact H|].
  apply (constructors_install_singleton (initialWorld (calmOracle prodEnv)) prodWorld).
  left. exact H.
Defined.

(** ** What a rotation does not reach *)

(** X2.  The watcher never calls [slog.SetDefault].  When a turn of the
    loop rotates a logger whose sink is the [slog] default and writes to an
    open file, the package variable and the [slog] default stay as they
    were: afterwards the logger has the new sink, and the [slog] default is
    still the old one. *)
Theorem rotation_leaves_slog_default
    (ll : nat) (w w' : World) (L : Logger) (f : File) :
  heap w !! ll = Some L ->
  slogLogger L = Some (slogDefault w) ->
  slogLogger L = prodSink f ->
  f < length (fds w) ->
  Day (today L) <> Day (clock (os w) (S (tick w))) ->
  watcherLoopBody ll w = Ok tt w' ->
  instance w' = instance w /\
  slogDefault w' = slogDefault w /\
  exists L', heap w' !! ll = Some L' /\
             slogLogger L' = prodSink (length (fds w)) /\
             slogLogger L' <> Some (slogDefault w').
Proof.
  intros H Hdef Hsink Hf Hday Hrun.
  assert (Hlt : ll < length (heap w)) by now apply lookup_lt_Some in H.
  rewrite (watcherLoopBody_run ll w L H) in Hrun.
  destruct (Z.eqb_spec (Day (today L)) (Day (clock (os w) (S (tick w)))))
    as [E|_]; [contradiction|].
  rewrite (rotate_run ll _ L) in Hrun by exact H. cbn in Hrun.
  destruct (mkdirErr _ _ _); [discriminate|].
  destruct (openErr _ _ _); [discriminate|].
  injection Hrun as <-. cbn. split; [reflexivity|]. split; [reflexivity|].
  eexists. split; [now apply list_lookup_insert_eq|].
  split; [reflexivity|]. cbn.
  rewrite <- Hdef, Hsink. unfold prodSink. intros C.
  injection C as C. lia.
Qed.

Lemma rotation_leaves_slog_default_witness :
  exists w' L',
    watcherLoopBody 0 midnightWorld = Ok tt w' /\
    slogDefault w' = slogDefault midnightWorld /\
    heap w' !! 0 = Some L' /\
    slogLogger L' = prodSink 1 /\
    slogLogger L' <> Some (slogDefault w').
Proof.
  rewrite midnightWorld_eq.
  match goal with |- context [watcherLoopBody 0 ?W] => set (w := W) end.
  assert (HL : heap w !! 0
               = Some (mkLogger (prodSink 0) None "/tmp/t1/" "prod" "service" (jan 15 0)))
    by reflexivity.
  assert (Hrun : exists w', watcherLoopBody 0 w = Ok tt w').
  { vm_compute. eexists. reflexivity. }
  destruct Hrun as [w' Hrun]. exists w'.
  destruct (rotation_leaves_slog_default 0 w w' _ 0 HL eq_refl eq_refl)
    as (_ & Hd & L' & HL' & Hs & Hne);
    [cbn; lia|discriminate|exact Hrun|].
  exists L'. repeat (split; [assumption|]). exact Hne.
Defined.

(** X3.  When the day has changed and the new file cannot be opened, the
    turn panics with the error of [MkdirAll] or [OpenFile]: nothing handles
    it in the goroutine.  At that point the logger still has the sink and
    the date it had, and no file has been opened. *)
Theorem rotation_failure_panics (ll : nat) (w : World) (L : Logger) (e : string) :
  heap w !! ll = Some L ->
  Day (today L) <> Day (clock (os w) (S (tick w))) ->
  openFails (os w) (S (S (tick w))) (logsDict L) e ->
  exists w', watcherLoopBody ll w = Panic e w' /\
             heap w' = heap w /\ fds w' = fds w /\
             instance w' = instance w /\ slogDefault w' = slogDefault w.
Proof.
  intros H Hday Hfail.
  rewrite (watcherLoopBody_run ll w L H).
  destruct (Z.eqb_spec (Day (today L)) (Day (clock (os w) (S (tick w)))))
    as [E|_]; [contradiction|].
  rewrite (rotate_run ll _ L) by exact H. cbn.
  destruct Hfail as [H1|[H1 H2]].
  - rewrite H1. eexists. split; [reflexivity|]. now cbn.
  - rewrite H1, H2. eexists. split; [reflexivity|]. now cbn.
Qed.

Lemma rotation_failure_panics_witness :
  exists L w',
    heap failingNightWorld !! 0 = Some L /\
    Day (today L) <> Day (clock (os failingNightWorld) 11) /\
    openFails (os failingNightWorld) 12 (logsDict L) "mkdir: read-only file system" /\
    watcherLoopBody 0 failingNightWorld = Panic "mkdir: read-only file system" w' /\
    heap w' = heap failingNightWorld.
Proof.
  rewrite failingNightWorld_eq.
  match goal with |- context [watcherLoopBody 0 ?W] => set (w := W) end.
  assert (HL : heap w !! 0
               = Some (mkLogger (prodSink 0) None "/tmp/t1/" "prod" "service" (jan 15 0)))
    by reflexivity.
  assert (Hday : Day (jan 15 0) <> Day (clock (os w) (S (tick w)))) by discriminate.
  assert (Hfail : openFails (os w) (S (S (tick w))) "/tmp/t1/"
                    "mkdir: read-only file system") by (left; reflexivity).
  destruct (rotation_failure_panics 0 w _ _ HL Hday Hfail)
    as (w' & Hrun & Hheap & _).
  eexists. exists w'. split; [exact HL|]. split; [exact Hday|].
  split; [exact Hfail|]. split; [exact Hrun|exact Hheap].
Defined.

(** ** The file sink opener, on its own *)

(** X4.  [openLogFile] never panics: it returns either a file or the
    error.  A file is always a new entry of the table of open files, after
    the directory has been asked for.  An error is the error of [MkdirAll]
    or of [OpenFile], and then no file has been opened; when it is
    [MkdirAll] that fails, [OpenFile] is not called at all.  Loggers,
    singleton and watchers are out of its reach. *)
Theorem openLogFile_returns (path : Path) (w : World) :
  exists r w',
    openLogFile path w = Ok r w' /\
    heap w' = heap w /\ instance w' = instance w /\
    slogDefault w' = slogDefault w /\ goroutines w' = goroutines w /\
    match r with
    | inl f =>
        openSucceeds (os w) (tick w) path /\
        f = length (fds w) /\
        fds w' = (fds w ++ [codeLogFileName path (clock (os w) (tick w))])%list /\
        dirs w' = path :: dirs w /\ tick w' = 3 + tick w
    | inr e =>
        openFails (os w) (tick w) path e /\
        fds w' = fds w /\
        (mkdirErr (os w) (S (tick w)) path <> None ->
         dirs w' = dirs w /\ tick w' = 2 + tick w)
    end.
Proof.
  rewrite openLogFile_run. cbn zeta. unfold openFails, openSucceeds.
  destruct (mkdirErr (os w) (S (tick w)) path) as [e|] eqn:Hm.
  - do 2 eexists. split; [reflexivity|]. cbn.
    repeat (split; [reflexivity|]). split; [now left|]. now split.
  - destruct (openErr _ _ _) as [e|] eqn:Ho.
    + do 2 eexists. split; [reflexivity|]. cbn.
      repeat (split; [reflexivity|]). split; [now right|].
      split; [reflexivity|]. intros C. now contradiction C.
    + do 2 eexists. split; [reflexivity|]. cbn.
      repeat (split; [reflexivity|]). now repeat split.
Qed.

(** ** The date in the file's name and the stored date *)

Lemma codeLogFileName_sameDate (path : Path) (a b : Time) :
  sameDate a b -> codeLogFileName path a = codeLogFileName path b.
Proof.
  intros (Hy & Hm & Hd). unfold codeLogFileName, FormatDateOnly.
  now rewrite Hy, Hm, Hd.
Qed.

(** X5.  A rotation names the new file from one clock reading and stores
    a later one in [today].  When the two readings fall on the same
    calendar day, the logger afterwards writes to the file named, under its
    directory, for the date it stores. *)
Theorem rotation_file_named_for_today (ll : nat) (w w' : World) (L : Logger) :
  heap w !! ll = Some L ->
  Day (today L) <> Day (clock (os w) (S (tick w))) ->
  watcherLoopBody ll w = Ok tt w' ->
  sameDate (clock (os w) (2 + tick w)) (clock (os w) (5 + tick w)) ->
  exists L', heap w' !! ll = Some L' /\
             logsDict L' = logsDict L /\
             today L' = clock (os w) (5 + tick w) /\
             sinkFile w' L' = Some (codeLogFileName (logsDict L') (today L')).
Proof.
  intros H Hday Hrun Hsame.
  assert (Hlt : ll < length (heap w)) by now apply lookup_lt_Some in H.
  rewrite (watcherLoopBody_run ll w L H) in Hrun.
  destruct (Z.eqb_spec (Day (today L)) (Day (clock (os w) (S (tick w)))))
    as [E|_]; [contradiction|].
  rewrite (rotate_run ll _ L) in Hrun by exact H. cbn in Hrun.
  destruct (mkdirErr _ _ _); [discriminate|].
  destruct (openErr _ _ _); [discriminate|].
  injection Hrun as <-. eexists. cbn.
  split; [now apply list_lookup_insert_eq|]. split; [reflexivity|].
  split; [reflexivity|].
  unfold sinkFile. cbn. rewrite lookup_snoc. f_equal.
  now apply codeLogFileName_sameDate.
Qed.

Lemma rotation_file_named_for_today_witness :
  exists w' L',
    watcherLoopBody 0 midnightWorld = Ok tt w' /\
    heap w' !! 0 = Some L' /\
    today L' = jan 16 15 /\
    sinkFile w' L' = Some "/tmp/t1/2024-01-16.txt".
Proof.
  rewrite midnightWorld_eq.
  match goal with |- context [watcherLoopBody 0 ?W] => set (w := W) end.
  assert (HL : heap w !! 0
               = Some (mkLogger (prodSink 0) None "/tmp/t1/" "prod" "service" (jan 15 0)))
    by reflexivity.
  assert (Hrun : exists w', watcherLoopBody 0 w = Ok tt w').
  { vm_compute. eexists. reflexivity. }
  destruct Hrun as [w' Hrun]. exists w'.
  assert (Hday : Day (jan 15 0) <> Day (clock (os w) (S (tick w)))) by discriminate.
  assert (Hsame : sameDate (clock (os w) (2 + tick w)) (clock (os w) (5 + tick w)))
    by (repeat split).
  destruct (rotation_file_named_for_today 0 w w' _ HL Hday Hrun Hsame)
    as (L' & HL' & Hd & Ht & Hf).
  exists L'. split; [exact Hrun|]. split; [exact HL'|]. split; [exact Ht|].
  rewrite Hf, Hd, Ht. reflexivity.
Defined.

(** X6.  A production constructor reads the clock once for [today] and
    once more, in [openLogFile], for the file's name.  When both readings
    fall on the same calendar day, the logger it has built writes to the
    file named, under its directory, for the date it stores. *)
Theorem construction_file_named_for_today (w w' : World) :
  sameDate (clock (os w) (tick w)) (clock (os w) (S (tick w))) ->
  (envMod w = ModProd /\ init w = Ok tt w') \/
  (exists dict, CreateProdLogger dict w = Ok tt w') \/
  (exists dict, CreateRequestLogger ModProd dict w = Ok (length (heap w)) w') ->
  exists L, heap w' !! length (heap w) = Some L /\
            today L = clock (os w) (tick w) /\
            sinkFile w' L = Some (codeLogFileName (logsDict L) (today L)).
Proof.
  intros Hsame.
  intros [[Hm H]|[[dict H]|[dict H]]].
  - rewrite (init_prod w Hm) in H. cbn zeta in H.
    destruct (mkdirErr _ _ _); [discriminate|].
    destruct (openErr _ _ _); [discriminate|].
    injection H as <-. eexists. cbn. rewrite lookup_snoc.
    split; [reflexivity|]. split; [reflexivity|].
    unfold sinkFile. cbn. rewrite lookup_snoc. f_equal.
    symmetry. now apply codeLogFileName_sameDate.
  - rewrite CreateProdLogger_run in H. cbn zeta in H.
    destruct (mkdirErr _ _ _); [discriminate|].
    destruct (openErr _ _ _); [discriminate|].
    injection H as <-. eexists. cbn. rewrite lookup_snoc.
    split; [reflexivity|]. split; [reflexivity|].
    unfold sinkFile. cbn. rewrite lookup_snoc. f_equal.
    symmetry. now apply codeLogFileName_sameDate.
  - rewrite CreateRequestLogger_prod in H. cbn zeta in H.
    destruct (mkdirErr _ _ _); [discriminate|].
    destruct (openErr _ _ _); [discriminate|].
    injection H as <-. eexists. cbn. rewrite lookup_snoc.
    split; [reflexivity|]. split; [reflexivity|].
    unfold sinkFile. cbn. rewrite lookup_snoc. f_equal.
    symmetry. now apply codeLogFileName_sameDate.
Qed.

Lemma construction_file_named_for_today_witness :
  let w := initialWorld (calmOracle prodEnv) in
  sameDate (clock (os w) (tick w)) (clock (os w) (S (tick w))) /\
  envMod w = ModProd /\ init w = Ok tt prodWorld /\
  exists L, heap prodWorld !! 0 = Some L /\
            today L = jan 15 0 /\
            sinkFile prodWorld L = Some (codeLogFileName (logsDict L) (today L)).
Proof.
  cbn zeta.
  assert (Hsame : sameDate (clock (os (initialWorld (calmOracle prodEnv)))
                              (tick (initialWorld (calmOracle prodEnv))))
                           (clock (os (initialWorld (calmOracle prodEnv)))
                              (S (tick (initialWorld (calmOracle prodEnv))))))
    by (repeat split).
  split; [exact Hsame|]. split; [exact prodEnv_prod|]. split; [exact prodWorld_run|].
  apply (construction_file_named_for_today (initialWorld (calmOracle prodEnv))
           prodWorld Hsame).
  left. split; [exact prodEnv_prod|exact prodWorld_run].
Defined.

(** ** The loop over many turns *)

Lemma setTick_setTick (a b : nat) (w : World) : setTick a (setTick b w) = setTick a w.
Proof. reflexivity. Qed.

(** X7.  While every clock reading shows the day of the month the logger
    stores, the watcher's loop only sleeps and compares: [n] turns end
    without a panic and leave the process as it was, the clock apart; no
    file is opened and no sink is swapped. *)
Theorem quiet_day_no_rotation (n ll : nat) (w : World) (L : Logger) :
  heap w !! ll = Some L ->
  (forall i, tick w <= i <= tick w + 2 * n ->
             Day (clock (os w) i) = Day (today L)) ->
  watcherLoop n ll w = Ok tt (setTick (2 * n + tick w) w).
Proof.
  revert w. induction n as [|n IH]; intros w H Hday.
  - cbn. now destruct w.
  - cbn [watcherLoop]. unfold bind.
    rewrite (watcherLoopBody_run ll w L H).
    rewrite (Hday (S (tick w))) by lia. rewrite Z.eqb_refl.
    rewrite IH; [|exact H|].
    + rewrite setTick_setTick. f_equal. f_equal. cbn. lia.
    + intros i Hi. cbn in Hi |- *. apply Hday. lia.
Qed.

Lemma quiet_day_no_rotation_witness :
  exists L,
    heap prodWorld !! 0 = Some L /\
    (forall i, 4 <= i <= 8 -> Day (clock (os prodWorld) i) = Day (today L)) /\
    watcherLoop 2 0 prodWorld = Ok tt (setTick 8 prodWorld).
Proof.
  rewrite prodWorld_eq.
  match goal with |- context [watcherLoop 2 0 ?W] => set (w := W) end.
  assert (HL : heap w !! 0
               = Some (mkLogger (prodSink 0) None "/tmp/t1/" "prod" "service" (jan 15 0)))
    by reflexivity.
  assert (Hday : forall i, tick w <= i <= tick w + 2 * 2 ->
                           Day (clock (os w) i) = Day (jan 15 0)).
  { intros i Hi. cbn in Hi.
    assert (Hc : i = 4 \/ i = 5 \/ i = 6 \/ i = 7 \/ i = 8) by lia.
    destruct Hc as [-> | [-> | [-> | [-> | ->]]]]; reflexivity. }
  eexists. split; [exact HL|]. split; [exact Hday|].
  exact (quiet_day_no_rotation 2 0 w _ HL Hday).
Defined.

(** X8.  A logger that has a sink keeps having one.  Whatever turns the
    watchers take, of this logger or of others, and also when one of them
    ends the process with a panic, the logger's embedded [*slog.Logger] is
    never nil again: a rotation puts the new sink in place in one step and
    a failed one leaves the old. *)
Theorem sink_stays_non_nil (sched : list nat) (ll : nat) (w : World) (L : Logger) :
  heap w !! ll = Some L ->
  slogLogger L <> None ->
  exists L', heap (worldOf (runWatchers sched w)) !! ll = Some L' /\
             slogLogger L' <> None.
Proof.
  revert w L. induction sched as [|g rest IH]; intros w L H Hs.
  - exists L. now split.
  - cbn [runWatchers]. rewrite worldOf_bind.
    assert (Hstep : exists L1, heap (worldOf (watcherLoopBody g w)) !! ll = Some L1 /\
                               slogLogger L1 <> None).
    { destruct (Nat.eq_dec ll g) as [<-|Hne].
      - pose proof (watcherLoopBody_own ll w L H) as Hown. cbn zeta in Hown.
        destruct Hown as [(Hh & _)|[(t & nm & Hh & _)|(Hh & _)]].
        + exists L. now rewrite Hh.
        + eexists. rewrite Hh. split.
          * apply list_lookup_insert_eq. now apply lookup_lt_Some in H.
          * discriminate.
        + exists L. now rewrite Hh.
      - pose proof (watcherLoopBody_others g w) as (_ & _ & _ & _ & Hheap).
        exists L. now rewrite Hheap. }
    destruct Hstep as (L1 & H1 & Hs1).
    destruct (watcherLoopBody g w) as [[] w1|e w1]; cbn [worldOf] in H1.
    + now apply (IH w1 L1).
    + now exists L1.
Qed.

Lemma sink_stays_non_nil_witness :
  exists L L',
    heap midnightWorld !! 0 = Some L /\ slogLogger L <> None /\
    heap (worldOf (runWatchers [0; 0] midnightWorld)) !! 0 = Some L' /\
    slogLogger L' <> None.
Proof.
  rewrite midnightWorld_eq.
  match goal with |- context [runWatchers _ ?W] => set (w := W) end.
  assert (HL : heap w !! 0
               = Some (mkLogger (prodSink 0) None "/tmp/t1/" "prod" "service" (jan 15 0)))
    by reflexivity.
  assert (Hs : prodSink 0 <> None) by discriminate.
  destruct (sink_stays_non_nil [0; 0] 0 w _ HL Hs) as (L' & HL' & Hs').
  eexists. exists L'. split; [exact HL|]. split; [exact Hs|]. now split.
Defined.

(** ** Histories *)

Lemma init_builtFrom (w w' : World) :
  init w = Ok tt w' -> builtFrom w w' /\ instance w' = Some (length (heap w)).
Proof.
  intros H. destruct (String.eqb_spec (envMod w) ModProd) as [E|E].
  - rewrite (init_prod w E) in H. cbn zeta in H.
    destruct (mkdirErr _ _ _); [discriminate|].
    destruct (openErr _ _ _); [discriminate|].
    injection H as <-. split; [|reflexivity]. eexists. cbn.
    split; [reflexivity|]. split; [now right|]. split; [reflexivity|].
    left. repeat split. eauto.
  - rewrite (init_dev w E) in H. injection H as <-. split; [|reflexivity].
    eexists. cbn. split; [reflexivity|]. split; [now right|].
    split; [reflexivity|]. right. now repeat split.
Qed.

Lemma CreateProdLogger_builtFrom (dict : Path) (w w' : World) :
  CreateProdLogger dict w = Ok tt w' ->
  builtFrom w w' /\ instance w' = Some (length (heap w)).
Proof.
  intros H. rewrite CreateProdLogger_run in H. cbn zeta in H.
  destruct (mkdirErr _ _ _); [discriminate|].
  destruct (openErr _ _ _); [discriminate|].
  injection H as <-. split; [|reflexivity]. eexists. cbn.
  split; [reflexivity|]. split; [now right|]. split; [reflexivity|].
  left. repeat split. eauto.
Qed.

Lemma CreateDevLogger_builtFrom (w w' : World) :
  CreateDevLogger w = Ok tt w' ->
  builtFrom w w' /\ instance w' = Some (length (heap w)).
Proof.
  intros H. rewrite CreateDevLogger_run in H. injection H as <-.
  split; [|reflexivity]. eexists. cbn. split; [reflexivity|].
  split; [now right|]. split; [reflexivity|]. right. now repeat split.
Qed.

Lemma CreateRequestLogger_builtFrom (m : Mod) (dict : Path) (w w' : World) (ll : nat) :
  CreateRequestLogger m dict w = Ok ll w' ->
  builtFrom w w' /\ instance w' = instance w.
Proof.
  intros H. destruct (String.eqb_spec m ModProd) as [->|E].
  - rewrite CreateRequestLogger_prod in H. cbn zeta in H.
    destruct (mkdirErr _ _ _); [discriminate|].
    destruct (openErr _ _ _); [discriminate|].
    injection H as <- <-. split; [|reflexivity]. eexists. cbn.
    split; [reflexivity|]. split; [now left|]. split; [reflexivity|].
    left. repeat split. eauto.
  - rewrite (CreateRequestLogger_dev m dict w E) in H. injection H as <- <-.
    split; [|reflexivity]. eexists. cbn. split; [reflexivity|].
    split; [now left|]. split; [reflexivity|]. right. now repeat split.
Qed.

Lemma loggerOk_mono (w w' : World) (ll : nat) (L : Logger) (more : list nat) :
  loggerOk w ll L ->
  goroutines w' = (goroutines w ++ more)%list ->
  ~ In ll more ->
  length (fds w) <= length (fds w') ->
  loggerOk w' ll L.
Proof.
  intros [Hfile Hcase] Hg Hnot Hfds. split; [exact Hfile|].
  destruct Hcase as [(Hm & Hin & f & Hs & Hf)|(Hm & Hin & Hs)].
  - left. split; [exact Hm|]. split.
    + rewrite Hg. apply in_or_app. now left.
    + exists f. split; [exact Hs|lia].
  - right. split; [exact Hm|]. split; [|exact Hs].
    rewrite Hg. intros C. apply in_app_or in C. tauto.
Qed.

(** The part of the invariant that does not speak of [instance]. *)
Lemma builtFrom_invariant (w w' : World) :
  goroutinesAllocated w ->
  NoDup (goroutines w) ->
  (forall ll L, heap w !! ll = Some L -> loggerOk w ll L) ->
  builtFrom w w' ->
  goroutinesAllocated w' /\
  NoDup (goroutines w') /\
  (forall ll L, heap w' !! ll = Some L -> loggerOk w' ll L) /\
  length (heap w') = S (length (heap w)).
Proof.
  intros Hall Hnd Hok (Lnew & Hheap & _ & Hfile & Hcase).
  assert (Hfresh : ~ In (length (heap w)) (goroutines w)).
  { intros C. apply Hall in C. lia. }
  assert (Hlen : length (heap w') = S (length (heap w))).
  { rewrite Hheap, length_app. cbn. lia. }
  assert (Hmore : exists more,
             goroutines w' = (goroutines w ++ more)%list /\
             (forall x, In x more -> x = length (heap w)) /\
             length (fds w) <= length (fds w') /\
             NoDup (goroutines w') /\
             loggerOk w' (length (heap w)) Lnew).
  { destruct Hcase as [(Hm & Hg & (name & Hf) & Hs)|(Hm & Hg & Hf & Hs)].
    - exists [length (heap w)]. split; [exact Hg|]. split.
      { intros x [<-|[]]. reflexivity. }
      split; [rewrite Hf, length_app; lia|]. split.
      { rewrite Hg. apply NoDup_app. split; [exact Hnd|]. split.
        - intros x Hx Hx'. apply list_elem_of_In in Hx.
          apply list_elem_of_In in Hx'. destruct Hx' as [<-|[]]. contradiction.
        - apply NoDup_singleton. }
      split; [exact Hfile|]. left. split; [exact Hm|]. split.
      { rewrite Hg. apply in_or_app. right. now left. }
      exists (length (fds w)). split; [exact Hs|].
      rewrite Hf, length_app. cbn. lia.
    - exists []. split; [now rewrite Hg, app_nil_r|]. split; [intros x []|].
      split; [now rewrite Hf|]. split; [now rewrite Hg|].
      split; [exact Hfile|]. right. split; [exact Hm|]. split; [now rewrite Hg|exact Hs]. }
  destruct Hmore as (more & Hg & Hmore & Hfds & Hnd' & Hnew).
  split.
  { intros g Hin. rewrite Hg in Hin. rewrite Hlen.
    apply in_app_or in Hin. destruct Hin as [Hin|Hin].
    - apply Hall in Hin. lia.
    - apply Hmore in Hin. lia. }
  split; [exact Hnd'|]. split; [|exact Hlen].
  intros ll L HL. rewrite Hheap in HL.
  destruct (Nat.lt_ge_cases ll (length (heap w))) as [Hlt|Hge].
  - rewrite lookup_snoc_old in HL by exact Hlt.
    apply (loggerOk_mono w w' ll L more); [now apply Hok|exact Hg| |exact Hfds].
    intros C. apply Hmore in C. lia.
  - assert (ll = length (heap w)) as ->.
    { apply lookup_lt_Some in HL. rewrite length_app in HL. cbn in HL. lia. }
    rewrite lookup_snoc in HL. injection HL as <-. exact Hnew.
Qed.

Lemma existsb_eqb_In (g : nat) (l : list nat) :
  existsb (Nat.eqb g) l = true <-> In g l.
Proof.
  rewrite existsb_exists. split.
  - intros (x & Hin & Hx). apply Nat.eqb_eq in Hx. now subst.
  - intros H. exists g. split; [exact H|apply Nat.eqb_refl].
Qed.

Lemma turn_invariant (g : nat) (w w' : World) :
  processInvariant w ->
  In g (goroutines w) ->
  watcherLoopBody g w = Ok tt w' ->
  processInvariant w'.
Proof.
  intros (Hall & Hnd & Hok & (i & Hi & Hilt)) Hin Hrun.
  destruct (lookup_lt_is_Some_2 (heap w) g (Hall g Hin)) as [L HL].
  pose proof (watcherLoopBody_others g w) as (_ & Hinst & _ & Hg & Hother).
  pose proof (watcherLoopBody_own g w L HL) as Hown.
  rewrite Hrun in Hinst, Hg, Hother, Hown. cbn [worldOf] in *.
  assert (Hgm : goroutines w' = (goroutines w ++ [])%list) by now rewrite app_nil_r.
  destruct (Hok g L HL) as [Hfile [(Hm & _ & f & Hs & Hf)|(_ & Hnot & _)]];
    [|contradiction].
  assert (Hcases : (heap w' = heap w /\ fds w' = fds w) \/
                   (exists t nm,
                       heap w' = <[g := withToday t
                                          (withLogger (prodSink (length (fds w))) L)]>
                                   (heap w) /\
                       fds w' = (fds w ++ [nm])%list)).
  { destruct Hown as [(Hh & Hfd & _)|[(t & nm & Hh & Hfd & _)|(Hh & Hfd & _)]].
    - now left.
    - right. exists t. eexists. split; [exact Hh|exact Hfd].
    - now left. }
  destruct Hcases as [(Hh & Hfd)|(t & nm & Hh & Hfd)].
  - split; [intros x Hx; rewrite Hg in Hx; rewrite Hh; now apply Hall|].
    split; [now rewrite Hg|]. split.
    + intros ll L0 H0. rewrite Hh in H0.
      apply (loggerOk_mono w w' ll L0 []); [now apply Hok|exact Hgm|intros []|].
      now rewrite Hfd.
    + exists i. split; [now rewrite Hinst|now rewrite Hh].
  - assert (Hlen : length (heap w') = length (heap w))
      by (rewrite Hh; apply length_insert).
    assert (Hfds : length (fds w) < length (fds w'))
      by (rewrite Hfd, length_app; cbn; lia).
    split; [intros x Hx; rewrite Hg in Hx; rewrite Hlen; now apply Hall|].
    split; [now rewrite Hg|]. split.
    + intros ll L0 H0. destruct (Nat.eq_dec ll g) as [->|Hne].
      * rewrite Hh, list_lookup_insert_eq in H0 by now apply Hall.
        injection H0 as <-. split; [exact Hfile|]. left.
        split; [exact Hm|]. split; [now rewrite Hg|].
        exists (length (fds w)). split; [reflexivity|exact Hfds].
      * rewrite Hother in H0 by exact Hne.
        apply (loggerOk_mono w w' ll L0 []); [now apply Hok|exact Hgm|intros []|lia].
    + exists i. split; [now rewrite Hinst|now rewrite Hlen].
Qed.

Lemma runOp_invariant (o : Op) (w w' : World) :
  processInvariant w -> runOp o w = Ok tt w' -> processInvariant w'.
Proof.
  intros Hinv Hrun.
  assert (Hbuilt : forall w1,
             builtFrom w w1 ->
             (instance w1 = instance w \/ instance w1 = Some (length (heap w))) ->
             processInvariant w1).
  { intros w1 Hb Hinst.
    destruct Hinv as (Hall & Hnd & Hok & (i & Hi & Hilt)).
    destruct (builtFrom_invariant w w1 Hall Hnd Hok Hb) as (Ha & Hn & Ho & Hlen).
    split; [exact Ha|]. split; [exact Hn|]. split; [exact Ho|].
    destruct Hinst as [Hinst|Hinst].
    - exists i. split; [now rewrite Hinst|lia].
    - exists (length (heap w)). split; [exact Hinst|lia]. }
  destruct o as [dict| |m dict|g]; cbn [runOp] in Hrun.
  - apply CreateProdLogger_builtFrom in Hrun as [Hb Hi]. apply Hbuilt; auto.
  - apply CreateDevLogger_builtFrom in Hrun as [Hb Hi]. apply Hbuilt; auto.
  - unfold bind in Hrun.
    destruct (CreateRequestLogger m dict w) as [ll w1|e w1] eqn:E; [|discriminate].
    injection Hrun as <-.
    apply CreateRequestLogger_builtFrom in E as [Hb Hi]. apply Hbuilt; auto.
  - destruct (existsb (Nat.eqb g) (goroutines w)) eqn:E.
    + apply existsb_eqb_In in E. now apply (turn_invariant g w w').
    + now injection Hrun as <-.
Qed.

Lemma runOps_invariant (ops : list Op) (w w' : World) :
  processInvariant w -> runOps ops w = Ok tt w' -> processInvariant w'.
Proof.
  revert w. induction ops as [|o rest IH]; intros w Hinv Hrun.
  - now injection Hrun as <-.
  - cbn [runOps] in Hrun. unfold bind in Hrun.
    destruct (runOp o w) as [[] w1|e w1] eqn:E; [|discriminate].
    apply (IH w1); [|exact Hrun]. now apply (runOp_invariant o w w1).
Qed.

Lemma process_invariant (o : Oracle) (ops : list Op) (w : World) :
  process ops (initialWorld o) = Ok tt w -> processInvariant w.
Proof.
  unfold process, bind. intros Hrun.
  destruct (init (initialWorld o)) as [[] w1|e w1] eqn:E; [|discriminate].
  apply (runOps_invariant ops w1); [|exact Hrun].
  apply init_builtFrom in E as [Hb Hi].
  destruct (builtFrom_invariant (initialWorld o) w1) as (Ha & Hn & Ho & Hlen);
    [intros g []|apply NoDup_nil; constructor|intros ll L C; discriminate C|exact Hb|].
  split; [exact Ha|]. split; [exact Hn|]. split; [exact Ho|].
  exists 0. split; [exact Hi|]. rewrite Hlen. cbn. lia.
Qed.

(** X9.  After [init] and any history of constructor calls and watcher
    turns that ends without a panic, [Get()] returns a logger that exists
    and has a sink; its [logFile] is nil. *)
Theorem process_get_has_sink (o : Oracle) (ops : list Op) (w : World) :
  process ops (initialWorld o) = Ok tt w ->
  exists ll L, Get w = Ok (Some ll) w /\ heap w !! ll = Some L /\
               slogLogger L <> None /\ logFile L = None.
Proof.
  intros Hrun. apply process_invariant in Hrun.
  destruct Hrun as (_ & _ & Hok & (ll & Hi & Hlt)).
  destruct (lookup_lt_is_Some_2 (heap w) ll Hlt) as [L HL].
  exists ll, L. split; [unfold Get, readInstance; now rewrite Hi|].
  split; [exact HL|].
  destruct (Hok ll L HL) as [Hfile [(_ & _ & f & Hs & _)|(_ & _ & Hs)]];
    (split; [now rewrite Hs|exact Hfile]).
Qed.

(** X10.  In the same processes every logger is in one of two shapes.  In
    mode ["prod"] it is served by a watcher and its sink is the JSON sink
    on an open file.  In any other mode no watcher serves it and its sink
    is the development sink.  No logger has two watchers, and every watcher
    serves a logger that exists. *)
Theorem process_watchers_match_modes (o : Oracle) (ops : list Op) (w : World) :
  process ops (initialWorld o) = Ok tt w ->
  NoDup (goroutines w) /\
  (forall g, In g (goroutines w) -> is_Some (heap w !! g)) /\
  forall ll L,
    heap w !! ll = Some L ->
    (In ll (goroutines w) <-> mod_ L = ModProd) /\
    (mod_ L = ModProd -> is_Some (sinkFile w L)) /\
    (mod_ L <> ModProd -> slogLogger L = Some (slogNew devHandler)).
Proof.
  intros Hrun. apply process_invariant in Hrun.
  destruct Hrun as (Hall & Hnd & Hok & _).
  split; [exact Hnd|]. split.
  { intros g Hg. apply lookup_lt_is_Some_2. now apply Hall. }
  intros ll L HL.
  destruct (Hok ll L HL) as [_ [(Hm & Hin & f & Hs & Hf)|(Hm & Hin & Hs)]].
  - split; [tauto|]. split; [|tauto].
    intros _. unfold sinkFile. rewrite Hs. cbn. now apply lookup_lt_is_Some_2.
  - split; [tauto|]. split; [tauto|]. now intros _.
Qed.

Lemma process_history_witness_run :
  exists w,
    process [CallCreateRequestLogger "prod" "/tmp/r/"; WatcherTurn 0;
             CallCreateDevLogger; WatcherTurn 1; WatcherTurn 0; WatcherTurn 1]
      (initialWorld (calmOracle prodEnv)) = Ok tt w /\
    instance w = Some 2 /\ goroutines w = [0; 1] /\
    fds w = ["/tmp/t1/2024-01-15.txt"; "/tmp/r/2024-01-15.txt";
             "/tmp/r/2024-01-16.txt"; "/tmp/t1/2024-01-16.txt"].
Proof. vm_compute. eexists. repeat split. Qed.

Lemma process_get_has_sink_witness :
  exists w ll L,
    process [CallCreateRequestLogger "prod" "/tmp/r/"; WatcherTurn 0;
             CallCreateDevLogger; WatcherTurn 1; WatcherTurn 0; WatcherTurn 1]
      (initialWorld (calmOracle prodEnv)) = Ok tt w /\
    Get w = Ok (Some ll) w /\ heap w !! ll = Some L /\ slogLogger L <> None.
Proof.
  destruct process_history_witness_run as (w & Hrun & _).
  destruct (process_get_has_sink _ _ w Hrun) as (ll & L & Hg & HL & Hs & _).
  exists w, ll, L. now repeat split.
Defined.

Lemma process_watchers_match_modes_witness :
  exists w,
    process [CallCreateRequestLogger "prod" "/tmp/r/"; WatcherTurn 0;
             CallCreateDevLogger; WatcherTurn 1; WatcherTurn 0; WatcherTurn 1]
      (initialWorld (calmOracle prodEnv)) = Ok tt w /\
    NoDup (goroutines w) /\
    forall ll L, heap w !! ll = Some L ->
                 (In ll (goroutines w) <-> mod_ L = ModProd).
Proof.
  destruct process_history_witness_run as (w & Hrun & _).
  destruct (process_watchers_match_modes _ _ w Hrun) as (Hnd & _ & Hall).
  exists w. split; [exact Hrun|]. split; [exact Hnd|].
  intros ll L HL. now apply Hall.
Defined.

(** ** A watcher, once started *)

(** A call or a turn that returns keeps every watcher running and every
    logger at its address, with its directory, mode and category. *)
Lemma runOp_keeps (o : Op) (w w' : World) :
  runOp o w = Ok tt w' ->
  (forall g, In g (goroutines w) -> In g (goroutines w')) /\
  (forall a L, heap w !! a = Some L ->
               exists L', heap w' !! a = Some L' /\ logsDict L' = logsDict L /\
                          mod_ L' = mod_ L /\ LoggerType L' = LoggerType L).
Proof.
  intros Hrun.
  assert (Hbuilt : forall w1,
             builtFrom w w1 ->
             (forall g, In g (goroutines w) -> In g (goroutines w1)) /\
             (forall a L, heap w !! a = Some L ->
                          exists L', heap w1 !! a = Some L' /\
                                     logsDict L' = logsDict L /\
                                     mod_ L' = mod_ L /\
                                     LoggerType L' = LoggerType L)).
  { intros w1 (Lnew & Hheap & _ & _ & Hcase). split.
    - intros g Hg.
      destruct Hcase as [(_ & Hgo & _)|(_ & Hgo & _)]; rewrite Hgo;
        [apply in_or_app; now left|exact Hg].
    - intros a L HL. exists L. rewrite Hheap.
      rewrite lookup_snoc_old by (now apply lookup_lt_Some in HL). now repeat split. }
  destruct o as [dict| |m dict|g]; cbn [runOp] in Hrun.
  - apply CreateProdLogger_builtFrom in Hrun as [Hb _]. now apply Hbuilt.
  - apply CreateDevLogger_builtFrom in Hrun as [Hb _]. now apply Hbuilt.
  - unfold bind in Hrun.
    destruct (CreateRequestLogger m dict w) as [ll w1|e w1] eqn:E; [|discriminate].
    injection Hrun as <-.
    apply CreateRequestLogger_builtFrom in E as [Hb _]. now apply Hbuilt.
  - destruct (existsb (Nat.eqb g) (goroutines w)) eqn:E.
    + pose proof (watcherLoopBody_others g w) as (_ & _ & _ & Hgo & Hother).
      rewrite Hrun in Hgo, Hother. cbn [worldOf] in Hgo, Hother.
      split; [intros x Hx; now rewrite Hgo|].
      intros a L HL. destruct (Nat.eq_dec a g) as [->|Hne].
      * pose proof (watcherLoopBody_own g w L HL) as Hown.
        rewrite Hrun in Hown. cbn [worldOf] in Hown.
        destruct Hown as [(Hh & _)|[(t & nm & Hh & _)|(Hh & _)]].
        -- exists L. rewrite Hh. now repeat split.
        -- eexists. rewrite Hh. split;
             [apply list_lookup_insert_eq; now apply lookup_lt_Some in HL|].
           now repeat split.
        -- exists L. rewrite Hh. now repeat split.
      * exists L. rewrite Hother by exact Hne. now repeat split.
    + injection Hrun as <-. split; [auto|]. intros a L HL. exists L. now repeat split.
Qed.

Lemma runOps_keeps (ops : list Op) (w w' : World) :
  runOps ops w = Ok tt w' ->
  (forall g, In g (goroutines w) -> In g (goroutines w')) /\
  (forall a L, heap w !! a = Some L ->
               exists L', heap w' !! a = Some L' /\ logsDict L' = logsDict L /\
                          mod_ L' = mod_ L /\ LoggerType L' = LoggerType L).
Proof.
  revert w. induction ops as [|o rest IH]; intros w Hrun.
  - injection Hrun as <-. split; [auto|]. intros a L HL. exists L. now repeat split.
  - cbn [runOps] in Hrun. unfold bind in Hrun.
    destruct (runOp o w) as [[] w1|e w1] eqn:E; [|discriminate].
    apply runOp_keeps in E as [Hg1 Hc1]. apply IH in Hrun as [Hg2 Hc2].
    split; [auto|]. intros a L HL.
    destruct (Hc1 a L HL) as (L1 & HL1 & Hd1 & Hm1 & Ht1).
    destruct (Hc2 a L1 HL1) as (L2 & HL2 & Hd2 & Hm2 & Ht2).
    exists L2. split; [exact HL2|]. repeat split; congruence.
Qed.

(** X11.  No constructor and no turn stops a watcher.  In a process, a
    watcher that is running at some point is still running after any
    further history of constructor calls and watcher turns that ends
    without a panic, and it still serves the same logger: same address,
    directory and category, mode ["prod"], a sink in place.  Replacing the
    singleton, in particular, does not stop the watcher of the logger it
    replaces. *)
Theorem started_watcher_keeps_serving
    (o : Oracle) (before after : list Op) (w1 w2 : World) (g : nat) :
  process before (initialWorld o) = Ok tt w1 ->
  runOps after w1 = Ok tt w2 ->
  In g (goroutines w1) ->
  In g (goroutines w2) /\
  exists L1 L2,
    heap w1 !! g = Some L1 /\ heap w2 !! g = Some L2 /\
    logsDict L2 = logsDict L1 /\ LoggerType L2 = LoggerType L1 /\
    mod_ L1 = ModProd /\ mod_ L2 = ModProd /\ slogLogger L2 <> None.
Proof.
  intros Hp Hafter Hg.
  apply process_invariant in Hp as Hinv1.
  pose proof (runOps_invariant after w1 w2 Hinv1 Hafter) as Hinv2.
  destruct (runOps_keeps after w1 w2 Hafter) as [Hkeep Hcfg].
  destruct Hinv1 as (Hall1 & _ & Hok1 & _).
  destruct Hinv2 as (_ & _ & Hok2 & _).
  destruct (lookup_lt_is_Some_2 (heap w1) g (Hall1 g Hg)) as [L1 HL1].
  destruct (Hcfg g L1 HL1) as (L2 & HL2 & Hd & Hm & Ht).
  split; [now apply Hkeep|]. exists L1, L2.
  split; [exact HL1|]. split; [exact HL2|]. split; [exact Hd|]. split; [exact Ht|].
  destruct (Hok1 g L1 HL1) as [_ [(Hm1 & _)|(_ & Hnot & _)]]; [|contradiction].
  split; [exact Hm1|]. split; [congruence|].
  destruct (Hok2 g L2 HL2) as [_ [(_ & _ & f & Hs & _)|(_ & Hnot & _)]].
  - rewrite Hs. discriminate.
  - exfalso. apply Hnot. now apply Hkeep.
Qed.

Lemma started_watcher_witness_run :
  exists w1 w2,
    process [] (initialWorld (calmOracle prodEnv)) = Ok tt w1 /\
    runOps [CallCreateDevLogger; WatcherTurn 0; WatcherTurn 0; WatcherTurn 0;
            WatcherTurn 0] w1 = Ok tt w2 /\
    goroutines w1 = [0] /\ instance w1 = Some 0 /\ instance w2 = Some 1 /\
    fds w2 = ["/tmp/t1/2024-01-15.txt"; "/tmp/t1/2024-01-16.txt"].
Proof. vm_compute. do 2 eexists. repeat split. Qed.

Lemma started_watcher_keeps_serving_witness :
  exists w1 w2,
    process [] (initialWorld (calmOracle prodEnv)) = Ok tt w1 /\
    runOps [CallCreateDevLogger; WatcherTurn 0; WatcherTurn 0; WatcherTurn 0;
            WatcherTurn 0] w1 = Ok tt w2 /\
    In 0 (goroutines w1) /\ instance w2 = Some 1 /\
    In 0 (goroutines w2) /\
    exists L2, heap w2 !! 0 = Some L2 /\ mod_ L2 = ModProd /\ slogLogger L2 <> None.
Proof.
  destruct started_watcher_witness_run as (w1 & w2 & Hp & Hafter & Hg & _ & Hi & _).
  assert (Hin : In 0 (goroutines w1)) by (rewrite Hg; now left).
  destruct (started_watcher_keeps_serving _ _ _ w1 w2 0 Hp Hafter Hin)
    as (Hin2 & L1 & L2 & _ & HL2 & _ & _ & _ & Hm2 & Hs2).
  exists w1, w2. split; [exact Hp|]. split; [exact Hafter|]. split; [exact Hin|].
  split; [exact Hi|]. split; [exact Hin2|]. exists L2. now repeat split.
Defined.

(** ** Sinks and file handles *)

Lemma prodSink_inj (a b : nat) : prodSink a = prodSink b -> a = b.
Proof. intros H. now injection H. Qed.

Lemma runOp_sinksDistinct (o : Op) (w w' : World) :
  processInvariant w -> sinksDistinct w ->
  runOp o w = Ok tt w' -> sinksDistinct w'.
Proof.
  intros Hinv Hdist Hrun.
  destruct Hinv as (Hall & Hnd & Hok & _).
  assert (Hbound : forall ll L f, heap w !! ll = Some L ->
                                  slogLogger L = prodSink f -> f < length (fds w)).
  { intros ll L f HL Hs.
    destruct (Hok ll L HL) as [_ [(_ & _ & f' & Hs' & Hf)|(_ & _ & Hs')]].
    - rewrite Hs in Hs'. apply prodSink_inj in Hs'. now subst.
    - rewrite Hs in Hs'. discriminate. }
  assert (Hbuilt : forall w1, builtFrom w w1 -> sinksDistinct w1).
  { intros w1 (Lnew & Hheap & _ & _ & Hcase) l1 l2 L1 L2 f H1 H2 Hs1 Hs2.
    rewrite Hheap in H1, H2.
    assert (Hnew : forall f', slogLogger Lnew = prodSink f' -> f' = length (fds w)).
    { intros f' Hs. destruct Hcase as [(_ & _ & _ & Hs')|(_ & _ & _ & Hs')];
        rewrite Hs in Hs'; [now apply prodSink_inj in Hs'|discriminate]. }
    assert (Hcell : forall l L, (heap w ++ [Lnew])%list !! l = Some L ->
                                (l < length (heap w) /\ heap w !! l = Some L) \/
                                (l = length (heap w) /\ L = Lnew)).
    { intros l L HL. destruct (Nat.lt_ge_cases l (length (heap w))) as [Hlt|Hge].
      - left. split; [exact Hlt|]. now rewrite lookup_snoc_old in HL.
      - right. assert (l = length (heap w)) as ->.
        { apply lookup_lt_Some in HL. rewrite length_app in HL. cbn in HL. lia. }
        rewrite lookup_snoc in HL. injection HL as <-. now split. }
    destruct (Hcell l1 L1 H1) as [(Hl1 & H1')|(-> & ->)];
      destruct (Hcell l2 L2 H2) as [(Hl2 & H2')|(-> & ->)].
    - now apply (Hdist l1 l2 L1 L2 f).
    - apply Hnew in Hs2. apply (Hbound l1 L1 f H1') in Hs1. lia.
    - apply Hnew in Hs1. apply (Hbound l2 L2 f H2') in Hs2. lia.
    - reflexivity. }
  destruct o as [dict| |m dict|g]; cbn [runOp] in Hrun.
  - apply CreateProdLogger_builtFrom in Hrun as [Hb _]. now apply Hbuilt.
  - apply CreateDevLogger_builtFrom in Hrun as [Hb _]. now apply Hbuilt.
  - unfold bind in Hrun.
    destruct (CreateRequestLogger m dict w) as [ll w1|e w1] eqn:E; [|discriminate].
    injection Hrun as <-.
    apply CreateRequestLogger_builtFrom in E as [Hb _]. now apply Hbuilt.
  - destruct (existsb (Nat.eqb g) (goroutines w)) eqn:E;
      [|now injection Hrun as <-].
    apply existsb_eqb_In in E.
    destruct (lookup_lt_is_Some_2 (heap w) g (Hall g E)) as [L HL].
    pose proof (watcherLoopBody_others g w) as (_ & _ & _ & _ & Hother).
    pose proof (watcherLoopBody_own g w L HL) as Hown.
    rewrite Hrun in Hother, Hown. cbn [worldOf] in *.
    assert (Hcases : heap w' = heap w \/
                     exists t, heap w' = <[g := withToday t
                                 (withLogger (prodSink (length (fds w))) L)]> (heap w)).
    { destruct Hown as [(Hh & _)|[(t & nm & Hh & _)|(Hh & _)]]; eauto. }
    destruct Hcases as [Hh|(t & Hh)].
    + intros l1 l2 L1 L2 f H1 H2. rewrite Hh in H1, H2. now apply (Hdist l1 l2 L1 L2 f).
    + assert (Hcell : forall l L0 f, heap w' !! l = Some L0 ->
                                     slogLogger L0 = prodSink f ->
                                     (l = g /\ f = length (fds w)) \/
                                     (l <> g /\ heap w !! l = Some L0 /\
                                      f < length (fds w))).
      { intros l L0 f H0 Hs. destruct (Nat.eq_dec l g) as [->|Hne].
        - left. split; [reflexivity|].
          rewrite Hh, list_lookup_insert_eq in H0 by now apply Hall.
          injection H0 as <-. cbn in Hs. now apply prodSink_inj in Hs.
        - right. rewrite Hother in H0 by exact Hne.
          split; [exact Hne|]. split; [exact H0|]. now apply (Hbound l L0 f). }
      intros l1 l2 L1 L2 f H1 H2 Hs1 Hs2.
      destruct (Hcell l1 L1 f H1 Hs1) as [(-> & Hf1)|(Hn1 & H1' & Hf1)];
        destruct (Hcell l2 L2 f H2 Hs2) as [(-> & Hf2)|(Hn2 & H2' & Hf2)];
        try reflexivity; try lia.
      now apply (Hdist l1 l2 L1 L2 f).
Qed.

(** X12.  After [init] and any history that ends without a panic, no two
    loggers have sinks on the same file handle: every production
    construction and every rotation opens a handle of its own. *)
Theorem process_sinks_never_share_a_handle
    (o : Oracle) (ops : list Op) (w : World) :
  process ops (initialWorld o) = Ok tt w -> sinksDistinct w.
Proof.
  unfold process, bind. intros Hrun.
  destruct (init (initialWorld o)) as [[] w1|e w1] eqn:E; [|discriminate].
  assert (Hinv1 : processInvariant w1).
  { apply (process_invariant o []). unfold process, bind. now rewrite E. }
  assert (Hd1 : sinksDistinct w1).
  { apply init_builtFrom in E as [(Lnew & Hheap & _) _].
    intros l1 l2 L1 L2 f H1 H2 _ _. rewrite Hheap in H1, H2. cbn in H1, H2.
    apply lookup_lt_Some in H1, H2. cbn in H1, H2. lia. }
  clear E. revert w1 Hinv1 Hd1 Hrun.
  induction ops as [|op rest IH]; intros w1 Hinv1 Hd1 Hrun.
  - now injection Hrun as <-.
  - cbn [runOps] in Hrun. unfold bind in Hrun.
    destruct (runOp op w1) as [[] w2|e w2] eqn:E; [|discriminate].
    apply (IH w2); [|now apply (runOp_sinksDistinct op w1 w2)|exact Hrun].
    now apply (runOp_invariant op w1 w2).
Qed.

Lemma process_sinks_never_share_a_handle_witness :
  exists w,
    process [CallCreateRequestLogger "prod" "/tmp/r/"; WatcherTurn 0;
             CallCreateDevLogger; WatcherTurn 1; WatcherTurn 0; WatcherTurn 1]
      (initialWorld (calmOracle prodEnv)) = Ok tt w /\
    sinksDistinct w.
Proof.
  destruct process_history_witness_run as (w & Hrun & _).
  exists w. split; [exact Hrun|].
  exact (process_sinks_never_share_a_handle _ _ w Hrun).
Defined.

(** ** A panic in [init] *)

(** X13.  [init] assigns the package variable before it builds the sink.
    When the first file cannot be opened and [init] panics, [instance]
    already names the logger just allocated, whose sink is nil. *)
Theorem init_panic_leaves_sinkless_instance (w : World) (e : string) :
  envMod w = ModProd ->
  openFails (os w) (S (tick w)) (envPath w) e ->
  exists w' L,
    init w = Panic e w' /\
    instance w' = Some (length (heap w)) /\
    heap w' !! length (heap w) = Some L /\
    slogLogger L = None /\ mod_ L = ModProd.
Proof.
  intros Hm Hfail. rewrite (init_prod w Hm). cbn zeta. cbn [Nat.add].
  destruct Hfail as [H|[H1 H2]].
  - rewrite H. do 2 eexists. split; [reflexivity|]. cbn.
    rewrite lookup_snoc. now repeat split.
  - rewrite H1, H2. do 2 eexists. split; [reflexivity|]. cbn.
    rewrite lookup_snoc. now repeat split.
Qed.

Lemma init_panic_leaves_sinkless_instance_witness :
  let w := initialWorld (readOnlyOracle prodEnv) in
  envMod w = ModProd /\
  openFails (os w) (S (tick w)) (envPath w) "mkdir: read-only file system" /\
  exists w' L,
    init w = Panic "mkdir: read-only file system" w' /\
    instance w' = Some 0 /\ heap w' !! 0 = Some L /\ slogLogger L = None.
Proof.
  cbn zeta.
  assert (Hm : envMod (initialWorld (readOnlyOracle prodEnv)) = ModProd)
    by reflexivity.
  assert (Hf : openFails (os (initialWorld (readOnlyOracle prodEnv)))
                 (S (tick (initialWorld (readOnlyOracle prodEnv))))
                 (envPath (initialWorld (readOnlyOracle prodEnv)))
                 "mkdir: read-only file system") by (left; reflexivity).
  split; [exact Hm|]. split; [exact Hf|].
  destruct (init_panic_leaves_sinkless_instance _ _ Hm Hf)
    as (w' & L & Hrun & Hi & HL & Hs & _).
  exists w', L. now repeat split.
Defined.

(** ** One file name per calendar day *)

Lemma readInt_zero (s : string) : readInt (String "0" s) = readInt s.
Proof.
  unfold readInt. cbn [NilEmpty.uint_of_string].
  destruct (NilEmpty.uint_of_string s); reflexivity.
Qed.

Lemma readInt_tail (c : ascii) (s : string) :
  readInt (String c s) <> None -> readInt s <> None /\ c <> "-"%char.
Proof.
  unfold readInt. cbn [NilEmpty.uint_of_string].
  destruct (NilEmpty.uint_of_string s) as [d|]; cbn; [|congruence].
  intros H. split; [discriminate|]. intros ->. now apply H.
Qed.

Lemma readInt_digits (n : N) :
  readInt (NilZero.string_of_uint (N.to_uint n)) = Some (Z.of_N n).
Proof.
  assert (H : NilZero.string_of_uint (N.to_uint n)
              = NilEmpty.string_of_uint (N.to_uint n)).
  { destruct n as [|p]; [reflexivity|]. cbn.
    pose proof (DecimalPos.Unsigned.to_uint_nonnil p) as Hp.
    now destruct (Pos.to_uint p). }
  unfold readInt. rewrite H, NilEmpty.usu.
  now rewrite DecimalN.Unsigned.of_to.
Qed.

Lemma zeros_succ (k : nat) :
  String.concat "" (repeat "0" (S k)) = String "0" (String.concat "" (repeat "0" k)).
Proof. destruct k; reflexivity. Qed.

(** [readInt] reads back what [appendInt] writes, whatever the width. *)
Lemma readInt_appendInt (z : Z) (width : nat) :
  (0 <= z)%Z -> readInt (appendInt z width) = Some z.
Proof.
  intros Hz. unfold appendInt.
  destruct (Z.ltb_spec z 0) as [C|_]; [lia|]. cbn [String.append].
  rewrite Z.abs_eq by exact Hz.
  set (digits := NilZero.string_of_uint (N.to_uint (Z.to_N z))).
  assert (Hd : readInt digits = Some z).
  { unfold digits. rewrite readInt_digits. now rewrite Z2N.id. }
  induction (width - String.length digits) as [|k IH]; [exact Hd|].
  rewrite zeros_succ. cbn [String.append]. now rewrite readInt_zero.
Qed.

(** Two strings of digits that continue with a dash end at the same
    place. *)
Lemma digits_then_dash (a b x y : string) :
  readInt a <> None -> readInt b <> None ->
  a ++ String "-" x = b ++ String "-" y -> a = b /\ x = y.
Proof.
  revert b. induction a as [|c a IH]; intros [|d b] Ha Hb H; cbn in H.
  - injection H as ->. now split.
  - injection H as <- _. now apply readInt_tail in Hb as [_ Hb].
  - injection H as -> _. now apply readInt_tail in Ha as [_ Ha].
  - injection H as -> H.
    apply readInt_tail in Ha as [Ha _]. apply readInt_tail in Hb as [Hb _].
    destruct (IH b Ha Hb H) as [-> ->]. now split.
Qed.

(** The formatted date determines the calendar day. *)
Lemma FormatDateOnly_inj (a b : Time) :
  nonNegativeDate a -> nonNegativeDate b ->
  FormatDateOnly a = FormatDateOnly b -> sameDate a b.
Proof.
  intros (Hya & Hma & Hda) (Hyb & Hmb & Hdb) H. unfold FormatDateOnly in H.
  pose proof (readInt_appendInt (tYear a) 4 Hya) as Rya.
  pose proof (readInt_appendInt (tYear b) 4 Hyb) as Ryb.
  pose proof (readInt_appendInt (tMonth a) 2 Hma) as Rma.
  pose proof (readInt_appendInt (tMonth b) 2 Hmb) as Rmb.
  pose proof (readInt_appendInt (tDay a) 2 Hda) as Rda.
  pose proof (readInt_appendInt (tDay b) 2 Hdb) as Rdb.
  apply digits_then_dash in H as [Hy H]; [|congruence..].
  apply digits_then_dash in H as [Hm Hd]; [|congruence..].
  rewrite Hy in Rya. rewrite Hm in Rma. rewrite Hd in Rda.
  unfold sameDate. repeat split; congruence.
Qed.

Lemma append_inj_r (a b s : string) : a ++ s = b ++ s -> a = b.
Proof.
  assert (Hlen : forall x y : string,
             String.length (x ++ y) = String.length x + String.length y).
  { induction x as [|c x IH]; intros y; cbn; [reflexivity|now rewrite IH]. }
  assert (Hsplit : forall x y u v : string,
             String.length x = String.length y -> x ++ u = y ++ v -> x = y).
  { induction x as [|c x IH]; intros [|d y] u v Hl H; try discriminate.
    - reflexivity.
    - cbn in Hl, H. injection H as -> H. injection Hl as Hl.
      now rewrite (IH y u v Hl H). }
  intros H. apply (Hsplit a b s s); [|exact H].
  apply (f_equal String.length) in H. rewrite !Hlen in H. lia.
Qed.

(** X14.  Under one directory, two clock readings give [openLogFile] the
    same file name exactly when they fall on the same calendar day: a day
    has one file, and the file of a new day is never the file of another
    (years from 0 on). *)
Theorem file_name_per_calendar_day (path : Path) (a b : Time) :
  nonNegativeDate a -> nonNegativeDate b ->
  (codeLogFileName path a = codeLogFileName path b <-> sameDate a b).
Proof.
  intros Ha Hb. split; [|apply codeLogFileName_sameDate].
  unfold codeLogFileName. intros H.
  apply append_inj_l, append_inj_r in H.
  now apply FormatDateOnly_inj.
Qed.

Lemma file_name_per_calendar_day_witness :
  nonNegativeDate (jan 15 0) /\ nonNegativeDate (jan 16 15) /\
  codeLogFileName "/tmp/t1/" (jan 15 0) <> codeLogFileName "/tmp/t1/" (jan 16 15).
Proof.
  assert (Ha : nonNegativeDate (jan 15 0)) by (unfold nonNegativeDate; cbn; lia).
  assert (Hb : nonNegativeDate (jan 16 15)) by (unfold nonNegativeDate; cbn; lia).
  split; [exact Ha|]. split; [exact Hb|].
  intros H. apply (file_name_per_calendar_day "/tmp/t1/" _ _ Ha Hb) in H.
  destruct H as (_ & _ & Hd). discriminate Hd.
Defined.
